(** * netclip: the clipboard exchange core of [netclip.py]

    A shallow embedding of the [Clip] class and of the [NetClip] handlers
    [on_clipboard_change], [send_clip], [on_clip_received] and [copy_clip],
    followed by the properties of the two clip histories, of the wire
    payload, of the loop suppression and of the menu labels. *)

From Stdlib Require Import String Ascii.
From Stdlib Require Import List ZArith NArith Lia Bool.
From Stdlib Require Import Strings.Byte.
Import ListNotations.

(* ===================================================================== *)
(** ** Python values the program works on                                 *)
(* ===================================================================== *)

Module Py.

(** A Python [str] is a sequence of code points; [bytes] is a sequence of
    octets.  [len] counts code points for a [str] and octets for
    [bytes]. *)
Definition char := N.
Definition str := list char.
Definition bytes := list byte.

Definition len {A} (s : list A) : Z := Z.of_nat (length s).

(** [lit "abc"] is the [str] literal written with ASCII characters. *)
Definition lit (s : string) : str :=
  map N_of_ascii (list_ascii_of_string s).

(** [a == b] on two [str]. *)
Fixpoint str_eqb (a b : str) : bool :=
  match a, b with
  | [], [] => true
  | x :: a', y :: b' => N.eqb x y && str_eqb a' b'
  | _, _ => false
  end.

(** Truth value of a [str]: [not text] holds for the empty string. *)
Definition falsy (s : str) : bool :=
  match s with [] => true | _ :: _ => false end.

(** Slice bounds: a negative index counts from the end, and both ends
    are clamped to the sequence, so a slice never raises. *)
Definition clamp (n : nat) (i : Z) : nat :=
  if (i <? 0)%Z then Z.to_nat (Z.max 0 (Z.of_nat n + i))
  else Nat.min (Z.to_nat i) n.

(** [s[:stop]] *)
Definition slice_to {A} (s : list A) (stop : Z) : list A :=
  firstn (clamp (length s) stop) s.

(** [s[start:]] *)
Definition slice_from {A} (s : list A) (start : Z) : list A :=
  skipn (clamp (length s) start) s.

(** [s.replace(old, new)] for one-character [old] and [new]. *)
Definition replace (old new : char) (s : str) : str :=
  map (fun c => if N.eqb c old then new else c) s.

(** The code points [str.strip()] removes: those for which
    [str.isspace] holds. *)
Definition isspace (c : char) : bool :=
  ((0x09 <=? c) && (c <=? 0x0D)
   || (0x1C <=? c) && (c <=? 0x20)
   || (c =? 0x85) || (c =? 0xA0) || (c =? 0x1680)
   || (0x2000 <=? c) && (c <=? 0x200A)
   || (c =? 0x2028) || (c =? 0x2029) || (c =? 0x202F)
   || (c =? 0x205F) || (c =? 0x3000))%N.

Fixpoint lstrip (s : str) : str :=
  match s with
  | [] => []
  | c :: s' => if isspace c then lstrip s' else s
  end.

Definition rstrip (s : str) : str := rev (lstrip (rev s)).

Definition strip (s : str) : str := rstrip (lstrip s).

(** [int(w / 2)]: true division followed by truncation toward zero
    (the float quotient of an integer by two is exact below 2^53). *)
Definition int_truediv2 (w : Z) : Z := Z.quot w 2.

(** *** UTF-8 *)

Definition octet (n : N) : byte :=
  match Byte.of_N n with Some b => b | None => x00 end.

(** [bytes(s, 'utf-8')]: fails (UnicodeEncodeError) on a surrogate. *)
Definition encode_char (c : char) : option bytes :=
  (if c <? 0x80 then Some [octet c]
   else if c <? 0x800 then
     Some [octet (0xC0 + c / 64); octet (0x80 + c mod 64)]
   else if (0xD800 <=? c) && (c <=? 0xDFFF) then None
   else if c <? 0x10000 then
     Some [octet (0xE0 + c / 4096); octet (0x80 + (c / 64) mod 64);
           octet (0x80 + c mod 64)]
   else if c <=? 0x10FFFF then
     Some [octet (0xF0 + c / 262144); octet (0x80 + (c / 4096) mod 64);
           octet (0x80 + (c / 64) mod 64); octet (0x80 + c mod 64)]
   else None)%N.

Fixpoint utf8_encode (s : str) : option bytes :=
  match s with
  | [] => Some []
  | c :: s' =>
      match encode_char c, utf8_encode s' with
      | Some b, Some bs => Some (b ++ bs)
      | _, _ => None
      end
  end.

Definition between (lo hi n : N) : bool := ((lo <=? n) && (n <=? hi))%N.

(** Allowed range of the second octet after lead octet [n0]; it rules
    out overlong forms, surrogates and values above U+10FFFF. *)
Definition second_ok (n0 n1 : N) : bool :=
  (if n0 =? 0xE0 then between 0xA0 0xBF n1
   else if n0 =? 0xED then between 0x80 0x9F n1
   else if n0 =? 0xF0 then between 0x90 0xBF n1
   else if n0 =? 0xF4 then between 0x80 0x8F n1
   else between 0x80 0xBF n1)%N.

Definition cont (b : byte) : N := (Byte.to_N b - 0x80)%N.
Definition is_cont (b : byte) : bool := between 0x80 0xBF (Byte.to_N b).

(** [data.decode('utf-8')] in strict mode: [None] stands for
    UnicodeDecodeError. *)
Fixpoint utf8_decode (data : bytes) : option str :=
  match data with
  | [] => Some []
  | b0 :: rest =>
      let n0 := Byte.to_N b0 in
      if (n0 <? 0x80)%N then option_map (cons n0) (utf8_decode rest)
      else if between 0xC2 0xDF n0 then
        match rest with
        | b1 :: rest1 =>
            if is_cont b1
            then option_map (cons ((n0 - 0xC0) * 64 + cont b1)%N)
                            (utf8_decode rest1)
            else None
        | _ => None
        end
      else if between 0xE0 0xEF n0 then
        match rest with
        | b1 :: b2 :: rest2 =>
            if second_ok n0 (Byte.to_N b1) && is_cont b2
            then option_map
                   (cons ((n0 - 0xE0) * 4096 + cont b1 * 64 + cont b2)%N)
                   (utf8_decode rest2)
            else None
        | _ => None
        end
      else if between 0xF0 0xF4 n0 then
        match rest with
        | b1 :: b2 :: b3 :: rest3 =>
            if second_ok n0 (Byte.to_N b1) && is_cont b2 && is_cont b3
            then option_map
                   (cons ((n0 - 0xF0) * 262144 + cont b1 * 4096
                          + cont b2 * 64 + cont b3)%N)
                   (utf8_decode rest3)
            else None
        | _ => None
        end
      else None
  end.

End Py.

Import Py.

(* ===================================================================== *)
(** ** class Clip                                                         *)
(* ===================================================================== *)

Record Clip := mkClip { text : str; max_width : Z }.

(** The separator written between the two halves of a shortened label:
    the literal of the format string in [get_itemlabel], code point by
    code point (U+00E2, U+20AC, U+00A6). *)
Definition ellipsis : str := [0xE2; 0x20AC; 0xA6]%N.

(** [Clip.get_itemlabel] *)
Definition get_itemlabel (self : Clip) : str :=
  let trimmed := strip (replace 10%N 32%N (text self)) in
  if (len trimmed >? max_width self)%Z then
    let max_width := (int_truediv2 (max_width self) - 1)%Z in
    slice_to trimmed max_width ++ ellipsis ++ slice_from trimmed (- max_width)
  else trimmed.

(** [Clip.__eq__]: a clip is compared with a text. *)
Definition Clip_eq (self : Clip) (other : str) : bool :=
  str_eqb other (text self).

(** [Clip.get_text] *)
Definition get_text (self : Clip) : str := slice_to (text self) 1472.

(** [a == b] for two clips, as [list.remove] evaluates it:
    [Clip.__eq__(a, b)] computes [b == a.text], which is
    [Clip.__eq__(b, a.text)], that is [a.text == b.text]. *)
Definition Clip_eq_clip (a b : Clip) : bool := Clip_eq b (text a).

(* ===================================================================== *)
(** ** class NetClip                                                      *)
(* ===================================================================== *)

(** The attributes the handlers read and write.  [autosend] and
    [autoreceive] are the states of the two check menu items. *)
Record NetClip := mkNetClip {
  clips : list Clip;
  received_clips : list Clip;
  clip_max_count : Z;
  menu_max_width : Z;
  last_sent : option str;
  autosend : bool;
  autoreceive : bool
}.

Definition with_clips (l : list Clip) (self : NetClip) : NetClip :=
  mkNetClip l (received_clips self) (clip_max_count self)
            (menu_max_width self) (last_sent self) (autosend self)
            (autoreceive self).

Definition with_received_clips (l : list Clip) (self : NetClip) : NetClip :=
  mkNetClip (clips self) l (clip_max_count self) (menu_max_width self)
            (last_sent self) (autosend self) (autoreceive self).

Definition with_last_sent (s : option str) (self : NetClip) : NetClip :=
  mkNetClip (clips self) (received_clips self) (clip_max_count self)
            (menu_max_width self) s (autosend self) (autoreceive self).

Definition with_autosend (b : bool) (self : NetClip) : NetClip :=
  mkNetClip (clips self) (received_clips self) (clip_max_count self)
            (menu_max_width self) (last_sent self) b (autoreceive self).

Definition with_autoreceive (b : bool) (self : NetClip) : NetClip :=
  mkNetClip (clips self) (received_clips self) (clip_max_count self)
            (menu_max_width self) (last_sent self) (autosend self) b.

(** [NetClip.__init__]: both histories empty, nothing sent yet. *)
Definition init (count width : Z) (autosend autoreceive : bool) : NetClip :=
  mkNetClip [] [] count width None autosend autoreceive.

(** Calls made to the collaborators, in the order they are made.  The
    calls into the desktop (clipboard, notification, menu) are recorded
    and taken to return; the socket may refuse a datagram, see
    [sendto_reply]. *)
Inductive effect :=
| Sendto (data : bytes)
    (* sock.sendto(data, (multicast_group, port)) *)
| ClipboardSetText (s : str)
    (* destination_clipboard.set_text(s, -1) *)
| ClipboardStore
    (* destination_clipboard.store() *)
| NotificationShow (summary body : str)
    (* Notify.Notification.new(summary, body, None) ... .show() *)
| FillMenu (to_send received : list str).
    (* fill_menu: the labels of both groups of menu items *)

Inductive exn := UnicodeDecodeError | UnicodeEncodeError | OSError.

Inductive value := VNone | VBool (b : bool) | VInt (n : Z).

(** How a call ends: it returns a value or an exception leaves it. *)
Inductive outcome := Returned (v : value) | Raised (e : exn).

Record result := mkResult {
  res_outcome : outcome;
  res_state : NetClip;
  res_effects : list effect
}.

Definition returned (v : value) (self : NetClip) (out : list effect) :=
  mkResult (Returned v) self out.

Definition raised (e : exn) (self : NetClip) (out : list effect) :=
  mkResult (Raised e) self out.

(** What the socket answers to [sendto]: the datagram leaves, or the call
    raises OSError (for instance when the network is unreachable). *)
Inductive sendto_reply := SendtoOk | SendtoOSError.

(** [l.remove(x)]: drops the first element equal to [x].  The handlers
    only remove an element they have just read from [l], so the
    ValueError of a missing element does not arise. *)
Fixpoint list_remove (x : Clip) (l : list Clip) : list Clip :=
  match l with
  | [] => []
  | y :: l' => if Clip_eq_clip y x then l' else y :: list_remove x l'
  end.

(** The loop
    [for clip in l: if text == clip: l.remove(clip)].
    The iterator keeps an index [i] into the list that the body shrinks:
    each round reads [l[i]], advances [i] and runs the body; the loop
    ends when [i] reaches the current length.  [fuel] bounds the number
    of rounds. *)
Fixpoint remove_loop (fuel : nat) (text : str) (i : nat) (l : list Clip)
  : list Clip :=
  match fuel with
  | O => l
  | S fuel' =>
      match nth_error l i with
      | None => l
      | Some clip =>
          remove_loop fuel' text (S i)
            (if Clip_eq clip text then list_remove clip l else l)
      end
  end.

(** The index grows by one each round and stays below the length, which
    never grows: [length l] rounds are enough (lemma
    [remove_loop_fuel]). *)
Definition remove_duplicates (text : str) (l : list Clip) : list Clip :=
  remove_loop (length l) text 0 l.

(** [l and text == l[0]] *)
Definition same_as_last (text : str) (l : list Clip) : bool :=
  match l with
  | [] => false
  | c :: _ => Clip_eq c text
  end.

(** [if len(l) > clip_max_count: l.pop()] *)
Definition cap (count : Z) (l : list Clip) : list Clip :=
  if (len l >? count)%Z then removelast l else l.

(** [fill_menu]: the menu shows the labels of both histories. *)
Definition fill_menu (self : NetClip) : effect :=
  FillMenu (map get_itemlabel (clips self))
           (map get_itemlabel (received_clips self)).

(** [NetClip.send_clip] *)
Definition send_clip (clip : Clip) (net : sendto_reply) (self : NetClip)
  : result :=
  let self := with_last_sent (Some (get_text clip)) self in
  match utf8_encode (get_text clip) with
  | None => raised UnicodeEncodeError self []
  | Some data =>
      match net with
      | SendtoOk => returned (VInt (len data)) self [Sendto data]
      | SendtoOSError => raised OSError self []
      end
  end.

(** [NetClip.copy_clip] *)
Definition copy_clip (clip : Clip) (self : NetClip) : result :=
  returned VNone self [ClipboardSetText (get_text clip); ClipboardStore].

(** [NetClip.on_clipboard_change].  [wait_for_text] is what
    [source_clipboard.wait_for_text()] returns ([None] when the clipboard
    holds no text) and [net] is the socket's answer should the handler
    send. *)
Definition on_clipboard_change (wait_for_text : option str)
           (net : sendto_reply) (self : NetClip) : result :=
  match wait_for_text with
  | None => returned (VBool false) self []
  | Some text =>
      if falsy text then returned (VBool false) self []
      else if same_as_last text (clips self)
      then returned (VBool false) self []
      else
        let self := with_clips (remove_duplicates text (clips self)) self in
        let clip := mkClip text (menu_max_width self) in
        let self := with_clips (clip :: clips self) self in
        let sent :=
          if autosend self then send_clip clip net self
          else returned VNone self [] in
        match res_outcome sent with
        | Raised e => sent
        | Returned _ =>
            let self := res_state sent in
            let self :=
              with_clips (cap (clip_max_count self) (clips self)) self in
            returned (VBool true) self (res_effects sent ++ [fill_menu self])
        end
  end.

(** [NetClip.on_clip_received].  [data] and [address] are what
    [sock.recvfrom(4096)] returns. *)
Definition on_clip_received (data : bytes) (address : str * Z)
           (self : NetClip) : result :=
  match utf8_decode data with
  | None => raised UnicodeDecodeError self []
  | Some text =>
      if match last_sent self with
         | Some sent => str_eqb sent text
         | None => false
         end
      then returned (VBool true) self []
      else if falsy text then returned (VBool false) self []
      else if same_as_last text (received_clips self)
      then returned (VBool false) self []
      else
        let self :=
          with_received_clips
            (remove_duplicates text (received_clips self)) self in
        let clip := mkClip text (menu_max_width self) in
        let shown :=
          if autoreceive self
          then res_effects (copy_clip clip self)
               ++ [NotificationShow
                     (lit "Autocopied clip from " ++ fst address)
                     (get_itemlabel clip)]
          else [NotificationShow (lit "Got clip from " ++ fst address)
                                 (get_itemlabel clip)] in
        let self := with_received_clips (clip :: received_clips self) self in
        let self :=
          with_received_clips
            (cap (clip_max_count self) (received_clips self)) self in
        returned (VBool true) self (shown ++ [fill_menu self])
  end.

(** *** The event loop

    What reaches the handlers: a change of the clipboard owner, a
    datagram on the socket, the activation of a menu item of either
    group, each bound to the clip it was made for, and a click on one of
    the two check items. *)
Inductive event :=
| OwnerChange (wait_for_text : option str) (net : sendto_reply)
| DatagramIn (datagram : bytes) (address : str * Z)
| ActivateSend (clip : Clip) (net : sendto_reply)
| ActivateCopy (clip : Clip)
| ToggleAutosend
| ToggleAutoreceive.

(** [sock.recvfrom(bufsize)]: the first [bufsize] octets of the datagram
    (the rest of a longer datagram is dropped). *)
Definition recvfrom (bufsize : nat) (datagram : bytes) : bytes :=
  firstn bufsize datagram.

Definition dispatch (self : NetClip) (e : event) : result :=
  match e with
  | OwnerChange t net => on_clipboard_change t net self
  | DatagramIn datagram address =>
      on_clip_received (recvfrom 4096 datagram) address self
  | ActivateSend clip net => send_clip clip net self
  | ActivateCopy clip => copy_clip clip self
  | ToggleAutosend =>
      returned VNone (with_autosend (negb (autosend self)) self) []
  | ToggleAutoreceive =>
      returned VNone (with_autoreceive (negb (autoreceive self)) self) []
  end.

(** The program's state after a handler ran: an exception ends the
    handler, not the program, and what the handler wrote so far stays. *)
Definition step (self : NetClip) (e : event) : NetClip :=
  res_state (dispatch self e).

Definition run (self : NetClip) (events : list event) : NetClip :=
  fold_left step events self.

(** The texts of a history, most recent first. *)
Definition texts (l : list Clip) : list str := map text l.

(** The invariant of a history of capacity [count]: no text twice, at
    most [count] entries, no empty text. *)
Definition store_ok (count : Z) (l : list Clip) : Prop :=
  NoDup (texts l) /\ (len l <= count)%Z /\ Forall (fun c => text c <> []) l.

(** An owner-change handler is left by an exception when the automatic
    send raises; [completes self events] says that this happens in none
    of the rounds of the run. *)
Fixpoint completes (self : NetClip) (events : list event) : Prop :=
  match events with
  | [] => True
  | e :: events' =>
      (forall wait_for_text net x,
          e = OwnerChange wait_for_text net ->
          res_outcome (dispatch self e) <> Raised x)
      /\ completes (step self e) events'
  end.

(** *** The label as the specification words it

    [claimed_itemlabel sep c]: when the normalized text is longer than
    the width, the first and the last [floor(width/2) - 1] characters
    around the separator [sep]; the normalized text otherwise. *)
Definition normalized (s : str) : str := strip (replace 10%N 32%N s).

Definition take_first {A} (k : nat) (s : list A) : list A := firstn k s.

Definition take_last {A} (k : nat) (s : list A) : list A :=
  skipn (length s - k) s.

Definition claimed_itemlabel (sep : str) (c : Clip) : str :=
  let k := Z.to_nat (max_width c / 2 - 1) in
  if (len (normalized (text c)) >? max_width c)%Z
  then take_first k (normalized (text c)) ++ sep
       ++ take_last k (normalized (text c))
  else normalized (text c).

(** A history less the entries whose text is [s], the others in the
    order they had. *)
Definition without (s : str) (l : list Clip) : list Clip :=
  filter (fun c => negb (Clip_eq c s)) l.

(** U+2026 HORIZONTAL ELLIPSIS *)
Definition HORIZONTAL_ELLIPSIS : str := [0x2026%N].

(** The owner-change handlers of a run that an exception of the
    automatic send left. *)
Fixpoint raised_sends (self : NetClip) (events : list event) : nat :=
  match events with
  | [] => 0
  | e :: events' =>
      match e, res_outcome (dispatch self e) with
      | OwnerChange _ _, Raised _ => 1
      | _, _ => 0
      end
      + raised_sends (step self e) events'
  end.

(* ===================================================================== *)
(** ** The menu                                                           *)
(* ===================================================================== *)

(** The application menu is the ordered list of its children.  A menu
    item carries its label, whether it is sensitive, and the callback
    connected to its activation together with the clip bound to it. *)
Module Menu.

Inductive handler :=
| send_clip_of (clip : Clip)      (* connect('activate', self.send_clip, clip) *)
| copy_clip_of (clip : Clip)      (* connect('activate', self.copy_clip, clip) *)
| about                           (* connect('activate', self.about) *)
| quit.                           (* connect('activate', self.quit) *)

Inductive widget :=
| SeparatorMenuItem
| MenuItem (label : str) (sensitive : bool) (activate : option handler)
| CheckMenuItem (label : str) (active : bool).

Definition Clip_eq_dec (a b : Clip) : {a = b} + {a <> b}.
Proof.
  decide equality; [apply Z.eq_dec | apply (list_eq_dec N.eq_dec)].
Defined.

Definition handler_eq_dec (a b : handler) : {a = b} + {a <> b}.
Proof. decide equality; apply Clip_eq_dec. Defined.

Definition widget_eq_dec (a b : widget) : {a = b} + {a <> b}.
Proof.
  decide equality;
    try apply Bool.bool_dec; try apply (list_eq_dec N.eq_dec).
  decide equality. apply handler_eq_dec.
Defined.

(** [isinstance(child, Gtk.SeparatorMenuItem)] *)
Definition is_separator (child : widget) : bool :=
  match child with SeparatorMenuItem => true | _ => false end.

(** [menu.insert(child, position)]: a position past the end appends. *)
Definition insert (child : widget) (position : nat) (menu : list widget)
  : list widget :=
  firstn position menu ++ child :: skipn position menu.

(** [menu.append(child)] *)
Definition append (child : widget) (menu : list widget) : list widget :=
  menu ++ [child].

(** [menu.remove(child)]: takes the child out of the menu. *)
Fixpoint remove (child : widget) (menu : list widget) : list widget :=
  match menu with
  | [] => []
  | w :: menu' =>
      if widget_eq_dec w child then menu' else w :: remove child menu'
  end.

(** The loop of [fill_menu_clips] over the clips: one item per clip,
    each inserted one position after the one before. *)
Fixpoint insert_items (copy_clip : bool) (clips : list Clip)
         (menu : list widget) (index : nat) : list widget * nat :=
  match clips with
  | [] => (menu, index)
  | clip :: clips' =>
      let item :=
        MenuItem (get_itemlabel clip) true
                 (Some (if copy_clip then copy_clip_of clip
                        else send_clip_of clip)) in
      insert_items copy_clip clips' (insert item index menu) (S index)
  end.

(** [NetClip.fill_menu_clips]: returns the menu and the index after the
    last item it inserted. *)
Definition fill_menu_clips (menu : list widget) (clips : list Clip)
           (index : nat) (placeholder group_header : str)
           (copy_clip : bool) : list widget * nat :=
  let header :=
    MenuItem (match clips with [] => placeholder | _ :: _ => group_header end)
             false None in
  let menu := insert header index menu in
  insert_items copy_clip clips menu (S index).

(** The first loop of [fill_menu], over the children the menu had when
    the loop began: every child is removed until the second separator
    is met, where the loop breaks. *)
Fixpoint clear_loop (children : list widget) (separator_counter : nat)
         (menu : list widget) : list widget :=
  match children with
  | [] => menu
  | child :: children' =>
      let separator_counter :=
        if is_separator child then S separator_counter
        else separator_counter in
      if is_separator child && (separator_counter =? 2)%nat then menu
      else clear_loop children' separator_counter (remove child menu)
  end.

(** [NetClip.fill_menu] *)
Definition fill_menu (self : NetClip) (menu : list widget) : list widget :=
  let menu := clear_loop menu 0 menu in
  let '(menu, index) :=
    fill_menu_clips menu (clips self) 0
                    (lit "(no items to send yet)")
                    (lit "Click to send on network:") false in
  let menu := insert SeparatorMenuItem index menu in
  let '(menu, _) :=
    fill_menu_clips menu (received_clips self) (index + 1)
                    (lit "(no items received yet)")
                    (lit "Click to copy to clipboard:") true in
  menu.

(** [NetClip.create_menu] *)
Definition create_menu (self : NetClip) (menu : list widget)
           (autosend autoreceive : bool) : list widget :=
  let menu := append SeparatorMenuItem menu in
  let menu := append SeparatorMenuItem menu in
  let menu :=
    append (CheckMenuItem (lit "Auto _send copied clips") autosend) menu in
  let menu :=
    append (CheckMenuItem (lit "Auto copy _received clips") autoreceive)
           menu in
  let menu := append SeparatorMenuItem menu in
  let menu := append (MenuItem (lit "_About") true (Some about)) menu in
  let menu := append (MenuItem (lit "_Quit") true (Some quit)) menu in
  fill_menu self menu.

(** One group of the menu: its insensitive header, then one item per
    clip of the history. *)
Definition group (copy_clip : bool) (placeholder group_header : str)
           (clips : list Clip) : list widget :=
  MenuItem (match clips with [] => placeholder | _ :: _ => group_header end)
           false None
  :: map (fun clip =>
            MenuItem (get_itemlabel clip) true
                     (Some (if copy_clip then copy_clip_of clip
                            else send_clip_of clip)))
         clips.

(** The two groups of a state, the separator between them. *)
Definition groups (self : NetClip) : list widget :=
  group false (lit "(no items to send yet)")
        (lit "Click to send on network:") (clips self)
  ++ SeparatorMenuItem
  :: group true (lit "(no items received yet)")
           (lit "Click to copy to clipboard:") (received_clips self).

(** The children [create_menu] appends after the two groups. *)
Definition fixed_items (autosend autoreceive : bool) : list widget :=
  [SeparatorMenuItem;
   CheckMenuItem (lit "Auto _send copied clips") autosend;
   CheckMenuItem (lit "Auto copy _received clips") autoreceive;
   SeparatorMenuItem;
   MenuItem (lit "_About") true (Some about);
   MenuItem (lit "_Quit") true (Some quit)].

End Menu.

(* ===================================================================== *)
(** ** Strings and slices                                                 *)
(* ===================================================================== *)

Lemma str_eqb_eq (a b : str) : str_eqb a b = true <-> a = b.
Proof.
  revert b; induction a as [|x a IH]; intros [|y b]; simpl;
    try (split; [discriminate | discriminate]); try tauto.
  rewrite andb_true_iff, N.eqb_eq, IH.
  split; [intros [-> ->]; reflexivity | intros H; inversion H; auto].
Qed.

Lemma str_eqb_refl (a : str) : str_eqb a a = true.
Proof. apply str_eqb_eq; reflexivity. Qed.

Lemma str_eqb_neq (a b : str) : str_eqb a b = false <-> a <> b.
Proof.
  rewrite <- str_eqb_eq. destruct (str_eqb a b); split; congruence.
Qed.

Lemma Clip_eq_true (c : Clip) (s : str) : Clip_eq c s = true <-> text c = s.
Proof. unfold Clip_eq. rewrite str_eqb_eq. split; congruence. Qed.

Lemma Clip_eq_false (c : Clip) (s : str) :
  Clip_eq c s = false <-> text c <> s.
Proof. unfold Clip_eq. rewrite str_eqb_neq. split; congruence. Qed.

Lemma falsy_false (s : str) : s <> [] -> falsy s = false.
Proof. destruct s; [congruence | reflexivity]. Qed.

Lemma clamp_nonneg (n : nat) (i : Z) :
  (0 <= i)%Z -> clamp n i = Nat.min (Z.to_nat i) n.
Proof.
  intros H. unfold clamp. destruct (Z.ltb_spec i 0); [lia | reflexivity].
Qed.

Lemma clamp_neg (n : nat) (i : Z) :
  (i < 0)%Z -> clamp n i = Z.to_nat (Z.max 0 (Z.of_nat n + i)).
Proof.
  intros H. unfold clamp. destruct (Z.ltb_spec i 0); [reflexivity | lia].
Qed.

Lemma slice_to_firstn {A} (s : list A) (k : nat) :
  slice_to s (Z.of_nat k) = firstn k s.
Proof.
  unfold slice_to. rewrite clamp_nonneg by lia. rewrite Nat2Z.id.
  destruct (Nat.le_ge_cases k (length s)) as [H|H].
  - rewrite Nat.min_l by exact H. reflexivity.
  - rewrite Nat.min_r by exact H.
    rewrite !firstn_all2 by lia. reflexivity.
Qed.

Lemma slice_from_0 {A} (s : list A) : slice_from s 0 = s.
Proof. reflexivity. Qed.

Lemma slice_from_neg {A} (s : list A) (k : nat) :
  (0 < k)%nat -> (k <= length s)%nat ->
  slice_from s (- Z.of_nat k) = take_last k s.
Proof.
  intros H0 H. unfold slice_from, take_last. rewrite clamp_neg by lia.
  f_equal. lia.
Qed.

Lemma get_text_firstn (c : Clip) : get_text c = firstn 1472 (text c).
Proof. exact (slice_to_firstn (text c) 1472). Qed.

Lemma get_text_short (c : Clip) :
  (len (text c) <= 1472)%Z -> get_text c = text c.
Proof.
  intros H. rewrite get_text_firstn. apply firstn_all2.
  unfold len in H. lia.
Qed.

Lemma get_text_len (c : Clip) : (len (get_text c) <= 1472)%Z.
Proof.
  rewrite get_text_firstn. unfold len. rewrite length_firstn. lia.
Qed.

(** Cutting again what [get_text] returned changes nothing. *)
Lemma get_text_idempotent (c : Clip) (w : Z) :
  get_text (mkClip (get_text c) w) = get_text c.
Proof.
  rewrite (get_text_firstn (mkClip _ _)). cbn [text].
  apply firstn_all2. pose proof (get_text_len c). unfold len in *. lia.
Qed.

(** One octet per character for ASCII text. *)
Lemma utf8_encode_ascii (s : str) :
  Forall (fun c => (c < 0x80)%N) s ->
  exists data, utf8_encode s = Some data /\ length data = length s.
Proof.
  induction 1 as [|c s Hc _ (data & Hd & Hl)].
  - exists []. split; reflexivity.
  - exists (octet c :: data). simpl. unfold encode_char.
    apply N.ltb_lt in Hc. rewrite Hc, Hd. simpl. split; [reflexivity | lia].
Qed.

(* ===================================================================== *)
(** ** UTF-8: what is encoded decodes to the same text                    *)
(* ===================================================================== *)

Lemma to_N_octet (n : N) : (n < 256)%N -> Byte.to_N (octet n) = n.
Proof.
  intros H. unfold octet. destruct (Byte.of_N n) as [b|] eqn:E.
  - apply Byte.to_of_N. exact E.
  - apply Byte.of_N_None_iff in E. lia.
Qed.

Lemma utf8_decode_cons (b0 : byte) (rest : bytes) :
  utf8_decode (b0 :: rest) =
  let n0 := Byte.to_N b0 in
  if (n0 <? 0x80)%N then option_map (cons n0) (utf8_decode rest)
  else if between 0xC2 0xDF n0 then
    match rest with
    | b1 :: rest1 =>
        if is_cont b1
        then option_map (cons ((n0 - 0xC0) * 64 + cont b1)%N)
                        (utf8_decode rest1)
        else None
    | _ => None
    end
  else if between 0xE0 0xEF n0 then
    match rest with
    | b1 :: b2 :: rest2 =>
        if second_ok n0 (Byte.to_N b1) && is_cont b2
        then option_map
               (cons ((n0 - 0xE0) * 4096 + cont b1 * 64 + cont b2)%N)
               (utf8_decode rest2)
        else None
    | _ => None
    end
  else if between 0xF0 0xF4 n0 then
    match rest with
    | b1 :: b2 :: b3 :: rest3 =>
        if second_ok n0 (Byte.to_N b1) && is_cont b2 && is_cont b3
        then option_map
               (cons ((n0 - 0xF0) * 262144 + cont b1 * 4096
                      + cont b2 * 64 + cont b3)%N)
               (utf8_decode rest3)
        else None
    | _ => None
    end
  else None.
Proof. reflexivity. Qed.

Lemma Some_eq {A} (x y : A) : Some x = Some y -> x = y.
Proof. congruence. Qed.

(** Linear arithmetic with quotients and remainders by constants. *)
Ltac div_lia := zify; Z.to_euclidean_division_equations; lia.

(** The test that decides the conditional at the head of the goal. *)
Ltac leftmost b :=
  lazymatch b with
  | andb ?x _ => leftmost x
  | (if ?x then _ else _) => leftmost x
  | _ => constr:(b)
  end.

Ltac head_test :=
  match goal with
  | |- (if ?b then _ else _) = _ =>
      let t := leftmost b in
      lazymatch t with
      | N.ltb ?a ?c => destruct (N.ltb_spec a c)
      | N.leb ?a ?c => destruct (N.leb_spec a c)
      | N.eqb ?a ?c => destruct (N.eqb_spec a c)
      end; cbn [andb]; try (exfalso; div_lia)
  end.

Ltac decode_one :=
  let E := fresh "E" in
  intros E; apply Some_eq in E; rewrite <- E; clear E;
  cbn [app]; rewrite utf8_decode_cons; cbv zeta;
  unfold second_ok, is_cont, cont, between;
  rewrite !to_N_octet by div_lia;
  repeat head_test;
  f_equal; f_equal; div_lia.

Lemma decode_encode_char (c : char) (bs rest : bytes) :
  encode_char c = Some bs ->
  utf8_decode (bs ++ rest) = option_map (cons c) (utf8_decode rest).
Proof.
  unfold encode_char.
  destruct (N.ltb_spec c 0x80) as [H1|H1]; [decode_one|].
  destruct (N.ltb_spec c 0x800) as [H2|H2]; [decode_one|].
  destruct (N.leb_spec 0xD800 c) as [H3|H3];
    destruct (N.leb_spec c 0xDFFF) as [H4|H4]; cbn [andb]; try discriminate.
  all: destruct (N.ltb_spec c 0x10000) as [H5|H5]; try lia; try decode_one.
  destruct (N.leb_spec c 0x10FFFF) as [H6|H6]; [decode_one | discriminate].
Qed.

Lemma utf8_decode_encode (s : str) (data : bytes) :
  utf8_encode s = Some data -> utf8_decode data = Some s.
Proof.
  revert data. induction s as [|c s IH]; intros data; simpl.
  - intros E. apply Some_eq in E. rewrite <- E. reflexivity.
  - destruct (encode_char c) as [bs|] eqn:E; [|discriminate].
    destruct (utf8_encode s) as [rest|]; [|discriminate].
    intros E'. apply Some_eq in E'. rewrite <- E'.
    rewrite (decode_encode_char c bs rest E).
    rewrite (IH rest eq_refl). reflexivity.
Qed.

(* ===================================================================== *)
(** ** Whitespace normalization                                           *)
(* ===================================================================== *)

Lemma lstrip_split (s : str) :
  exists pre, s = pre ++ lstrip s /\ Forall (fun c => isspace c = true) pre.
Proof.
  induction s as [|c s (pre & Hs & Hpre)].
  - exists []. split; [reflexivity | constructor].
  - simpl. destruct (isspace c) eqn:Hc.
    + exists (c :: pre). split.
      * simpl. f_equal. exact Hs.
      * constructor; assumption.
    + exists []. split; [reflexivity | constructor].
Qed.

Lemma lstrip_head (s : str) :
  match lstrip s with [] => True | c :: _ => isspace c = false end.
Proof.
  induction s as [|c s IH]; simpl; [exact I|].
  destruct (isspace c) eqn:Hc; [exact IH | exact Hc].
Qed.

Lemma lstrip_fixed (s : str) :
  match s with [] => True | c :: _ => isspace c = false end ->
  lstrip s = s.
Proof. destruct s as [|c s]; simpl; [reflexivity | intros ->; reflexivity]. Qed.

Lemma rstrip_split (s : str) :
  exists post, s = rstrip s ++ post /\ Forall (fun c => isspace c = true) post.
Proof.
  unfold rstrip. destruct (lstrip_split (rev s)) as (pre & Hs & Hpre).
  exists (rev pre). split.
  - rewrite <- rev_app_distr, <- Hs, rev_involutive. reflexivity.
  - apply Forall_rev. exact Hpre.
Qed.

Lemma rstrip_last (s : str) :
  match rev (rstrip s) with [] => True | c :: _ => isspace c = false end.
Proof. unfold rstrip. rewrite rev_involutive. apply lstrip_head. Qed.

(** [rstrip] leaves the first character of a string that begins with a
    character other than whitespace. *)
Lemma rstrip_keeps_head (c : char) (s : str) :
  isspace c = false -> exists s', rstrip (c :: s) = c :: s'.
Proof.
  intros Hc. unfold rstrip. simpl rev.
  destruct (lstrip_split (rev s ++ [c])) as (pre & Hs & Hpre).
  assert (Hl : exists m, lstrip (rev s ++ [c]) = m ++ [c]).
  { destruct (lstrip (rev s ++ [c])) as [|x m] eqn:E using rev_ind.
    - rewrite app_nil_r in Hs. rewrite <- Hs in Hpre.
      apply Forall_app in Hpre. destruct Hpre as [_ Hpre].
      inversion Hpre; congruence.
    - rewrite app_assoc in Hs.
      apply app_inj_tail in Hs. destruct Hs as [_ ->]. eauto. }
  destruct Hl as (m & ->). rewrite rev_app_distr. simpl. eauto.
Qed.

Lemma strip_head (s : str) :
  match strip s with [] => True | c :: _ => isspace c = false end.
Proof.
  unfold strip. pose proof (lstrip_head s) as H.
  destruct (lstrip s) as [|c s'].
  - exact I.
  - destruct (rstrip_keeps_head c s' H) as (s'' & ->). exact H.
Qed.

(** The normalized text is the text with its newlines turned into
    spaces, less a run of whitespace at either end; it neither begins nor
    ends with whitespace and holds no newline. *)
Lemma normalized_spec (s : str) :
  (exists pre post,
      replace 10%N 32%N s = pre ++ normalized s ++ post
      /\ Forall (fun c => isspace c = true) pre
      /\ Forall (fun c => isspace c = true) post)
  /\ match normalized s with [] => True | c :: _ => isspace c = false end
  /\ match rev (normalized s) with [] => True | c :: _ => isspace c = false end
  /\ ~ In 10%N (normalized s).
Proof.
  unfold normalized, strip. set (r := replace 10%N 32%N s).
  destruct (lstrip_split r) as (pre & Hr & Hpre).
  destruct (rstrip_split (lstrip r)) as (post & Hl & Hpost).
  repeat split.
  - exists pre, post. split; [|split; assumption].
    rewrite <- Hl. exact Hr.
  - apply (strip_head r).
  - apply rstrip_last.
  - intros Hin.
    assert (Hin' : In 10%N r).
    { rewrite Hr. apply in_or_app. right. rewrite Hl.
      apply in_or_app. left. exact Hin. }
    unfold r, replace in Hin'. apply in_map_iff in Hin'.
    destruct Hin' as (c & Hc & _).
    destruct (N.eqb_spec c 10); [discriminate | congruence].
Qed.

Lemma get_itemlabel_unfold (c : Clip) :
  get_itemlabel c =
  if (len (normalized (text c)) >? max_width c)%Z
  then slice_to (normalized (text c)) (int_truediv2 (max_width c) - 1)
       ++ ellipsis
       ++ slice_from (normalized (text c))
                     (- (int_truediv2 (max_width c) - 1))
  else normalized (text c).
Proof. reflexivity. Qed.

(* ===================================================================== *)
(** ** The two histories                                                  *)
(* ===================================================================== *)

Lemma Clip_eq_clip_refl (c : Clip) : Clip_eq_clip c c = true.
Proof. apply str_eqb_refl. Qed.

Lemma Clip_eq_clip_false (a b : Clip) :
  Clip_eq_clip a b = false <-> text a <> text b.
Proof. unfold Clip_eq_clip. rewrite Clip_eq_false. split; congruence. Qed.

Lemma length_list_remove (x : Clip) (l : list Clip) :
  (length (list_remove x l) <= length l)%nat.
Proof.
  induction l as [|y l IH]; simpl; [lia|].
  destruct (Clip_eq_clip y x); simpl; lia.
Qed.

(** More rounds than the length of the list change nothing: the loop has
    ended by then. *)
Lemma remove_loop_fuel (s : str) (fuel : nat) :
  forall (i : nat) (l : list Clip) (fuel' : nat),
    (length l <= fuel + i)%nat -> (fuel <= fuel')%nat ->
    remove_loop fuel' s i l = remove_loop fuel s i l.
Proof.
  induction fuel as [|fuel IH]; intros i l fuel' Hl Hf.
  - assert (E : nth_error l i = None) by (apply nth_error_None; lia).
    destruct fuel'; simpl; [reflexivity | rewrite E; reflexivity].
  - destruct fuel' as [|fuel']; [lia|]. simpl.
    destruct (nth_error l i) as [clip|]; [|reflexivity].
    apply IH; [|lia].
    destruct (Clip_eq clip s); [|lia].
    pose proof (length_list_remove clip l). lia.
Qed.

Lemma remove_loop_none (s : str) (fuel : nat) :
  forall (i : nat) (l : list Clip),
    Forall (fun c => Clip_eq c s = false) l -> remove_loop fuel s i l = l.
Proof.
  induction fuel as [|fuel IH]; intros i l Hl; simpl; [reflexivity|].
  destruct (nth_error l i) as [clip|] eqn:E; [|reflexivity].
  apply nth_error_In in E. rewrite Forall_forall in Hl.
  rewrite (Hl clip E). apply IH. apply Forall_forall. exact Hl.
Qed.

Lemma list_remove_here (c : Clip) (pre suf : list Clip) :
  Forall (fun y => text y <> text c) pre ->
  list_remove c (pre ++ c :: suf) = pre ++ suf.
Proof.
  induction 1 as [|y pre Hy _ IH]; simpl.
  - rewrite Clip_eq_clip_refl. reflexivity.
  - apply Clip_eq_clip_false in Hy. rewrite Hy, IH. reflexivity.
Qed.

Lemma without_none (s : str) (l : list Clip) :
  Forall (fun c => Clip_eq c s = false) l -> without s l = l.
Proof.
  intros H. unfold without. apply forallb_filter_id.
  apply forallb_forall. rewrite Forall_forall in H.
  intros c Hc. rewrite (H c Hc). reflexivity.
Qed.

Lemma not_in_texts (s : str) (l : list Clip) :
  ~ In s (texts l) <-> Forall (fun c => Clip_eq c s = false) l.
Proof.
  rewrite Forall_forall. unfold texts. split.
  - intros H c Hc. apply Clip_eq_false. intros E. apply H.
    rewrite <- E. apply in_map. exact Hc.
  - intros H Hin. apply in_map_iff in Hin. destruct Hin as (c & E & Hc).
    specialize (H c Hc). apply Clip_eq_false in H. congruence.
Qed.

(** On a history without repeated texts the loop removes the one entry
    whose text is [s], if there is one, and nothing else. *)
Lemma remove_loop_NoDup (s : str) (suf : list Clip) :
  forall (pre : list Clip) (fuel : nat),
    (length suf <= fuel)%nat ->
    ~ In s (texts pre) ->
    NoDup (texts (pre ++ suf)) ->
    remove_loop fuel s (length pre) (pre ++ suf) = pre ++ without s suf.
Proof.
  induction suf as [|c suf IH]; intros pre fuel Hf Hpre Hnd.
  - unfold without. simpl filter. rewrite !app_nil_r.
    apply remove_loop_none. apply not_in_texts; exact Hpre.
  - destruct fuel as [|fuel]; [simpl in Hf; lia|]. simpl remove_loop.
    rewrite nth_error_app2 by lia. rewrite Nat.sub_diag. simpl nth_error.
    cbv beta iota.
    unfold texts in Hnd. rewrite map_app in Hnd. simpl in Hnd.
    destruct (Clip_eq c s) eqn:E.
    + apply Clip_eq_true in E.
      assert (Hrest : ~ In s (texts (pre ++ suf))).
      { unfold texts. rewrite map_app, <- E.
        apply NoDup_remove_2 in Hnd. exact Hnd. }
      rewrite list_remove_here.
      * rewrite remove_loop_none by (apply not_in_texts; exact Hrest).
        f_equal. unfold without. simpl.
        apply Clip_eq_true in E. rewrite E. simpl.
        symmetry. apply without_none. apply not_in_texts. intros Hin. apply Hrest.
        unfold texts. rewrite map_app. apply in_or_app. right. exact Hin.
      * apply not_in_texts in Hpre. rewrite Forall_forall in Hpre |- *.
        intros y Hy. specialize (Hpre y Hy). apply Clip_eq_false in Hpre.
        congruence.
    + replace (pre ++ c :: suf) with ((pre ++ [c]) ++ suf)
        by (rewrite <- app_assoc; reflexivity).
      replace (S (length pre)) with (length (pre ++ [c]))
        by (rewrite length_app; simpl; lia).
      rewrite IH.
      * rewrite <- app_assoc. simpl. unfold without at 2. simpl.
        rewrite E. reflexivity.
      * simpl in Hf. lia.
      * unfold texts. rewrite map_app. simpl. intros Hin.
        apply in_app_or in Hin. destruct Hin as [Hin | [Hin | []]].
        -- apply Hpre. exact Hin.
        -- apply Clip_eq_false in E. congruence.
      * unfold texts. rewrite <- app_assoc, map_app. exact Hnd.
Qed.

Lemma remove_duplicates_NoDup (s : str) (l : list Clip) :
  NoDup (texts l) -> remove_duplicates s l = without s l.
Proof.
  intros H. apply (remove_loop_NoDup s l [] (length l)).
  - lia.
  - intros [].
  - exact H.
Qed.

Lemma remove_duplicates_absent (s : str) (l : list Clip) :
  ~ In s (texts l) -> remove_duplicates s l = l.
Proof.
  intros H. apply remove_loop_none. apply not_in_texts. exact H.
Qed.

Lemma texts_without (s : str) (l : list Clip) :
  texts (without s l) = filter (fun x => negb (str_eqb s x)) (texts l).
Proof.
  induction l as [|c l IH]; simpl; [reflexivity|].
  unfold Clip_eq. destruct (str_eqb s (text c)); simpl; rewrite IH; reflexivity.
Qed.

Lemma without_not_in (s : str) (l : list Clip) : ~ In s (texts (without s l)).
Proof.
  rewrite texts_without. intros H. apply filter_In in H.
  destruct H as [_ H]. rewrite str_eqb_refl in H. discriminate.
Qed.

Lemma without_NoDup (s : str) (l : list Clip) :
  NoDup (texts l) -> NoDup (texts (without s l)).
Proof. intros H. rewrite texts_without. apply NoDup_filter. exact H. Qed.

Lemma without_length (s : str) (l : list Clip) :
  (length (without s l) <= length l)%nat.
Proof. apply filter_length_le. Qed.

Lemma without_Forall (P : Clip -> Prop) (s : str) (l : list Clip) :
  Forall P l -> Forall P (without s l).
Proof.
  rewrite !Forall_forall. intros H c Hc. apply filter_In in Hc.
  apply H. tauto.
Qed.

(** Taking one entry out of a history without repeated texts. *)
Lemma without_middle (c : Clip) (pre post : list Clip) :
  NoDup (texts (pre ++ c :: post)) ->
  without (text c) (pre ++ c :: post) = pre ++ post.
Proof.
  intros Hnd. unfold texts in Hnd. rewrite map_app in Hnd. simpl in Hnd.
  pose proof (NoDup_remove_2 _ _ _ Hnd) as Hout.
  unfold without. rewrite filter_app. simpl.
  unfold Clip_eq at 2. rewrite str_eqb_refl. simpl.
  fold (without (text c) pre). fold (without (text c) post).
  rewrite !without_none; [reflexivity | |];
    apply not_in_texts; intros Hin; apply Hout; apply in_or_app; auto.
Qed.

Lemma cap_fits (count : Z) (l : list Clip) :
  (len l <= count)%Z -> cap count l = l.
Proof.
  intros H. unfold cap. destruct (Z.gtb_spec (len l) count); [lia|reflexivity].
Qed.

Lemma cap_over (count : Z) (l : list Clip) :
  (len l > count)%Z -> cap count l = removelast l.
Proof.
  intros H. unfold cap. destruct (Z.gtb_spec (len l) count); [reflexivity|lia].
Qed.

Lemma len_removelast (l : list Clip) :
  l <> [] -> len (removelast l) = (len l - 1)%Z.
Proof.
  intros H. unfold len. rewrite removelast_firstn_len, length_firstn.
  destruct l; [congruence | cbn [length pred]; lia].
Qed.

Lemma texts_removelast (l : list Clip) :
  texts (removelast l) = removelast (texts l).
Proof.
  unfold texts. rewrite !removelast_firstn_len, length_map.
  symmetry. apply firstn_map.
Qed.

Lemma NoDup_removelast {A} (l : list A) : NoDup l -> NoDup (removelast l).
Proof.
  intros H. destruct l as [|a l] using rev_ind; [exact H|].
  rewrite removelast_last. apply NoDup_app_remove_r in H. exact H.
Qed.

Lemma Forall_removelast {A} (P : A -> Prop) (l : list A) :
  Forall P l -> Forall P (removelast l).
Proof.
  intros H. destruct l as [|a l] using rev_ind; [exact H|].
  rewrite removelast_last. apply Forall_app in H. tauto.
Qed.

(** Inserting one entry at the front of a history within its capacity
    and capping gives a history within its capacity again. *)
Lemma cap_store_ok (count : Z) (c : Clip) (l : list Clip) :
  store_ok count l -> ~ In (text c) (texts l) -> text c <> [] ->
  store_ok count (cap count (c :: l)).
Proof.
  intros (Hnd & Hlen & Hne) Hc Hc'.
  assert (Hok : NoDup (texts (c :: l)) /\ Forall (fun c => text c <> []) (c :: l)).
  { split; [simpl; constructor; assumption | constructor; assumption]. }
  destruct Hok as [Hnd' Hne'].
  destruct (Z_le_gt_dec (len (c :: l)) count) as [H|H].
  - rewrite cap_fits by exact H. repeat split; assumption.
  - rewrite cap_over by exact H. repeat split.
    + rewrite texts_removelast. apply NoDup_removelast. exact Hnd'.
    + rewrite len_removelast by discriminate.
      unfold len in *. simpl length in *. lia.
    + apply Forall_removelast. exact Hne'.
Qed.

(* ===================================================================== *)
(** ** The handlers                                                       *)
(* ===================================================================== *)

Lemma same_as_last_true (s : str) (l : list Clip) :
  same_as_last s l = true <-> hd_error (texts l) = Some s.
Proof.
  destruct l as [|c l]; simpl; [split; discriminate|].
  rewrite Clip_eq_true. split; congruence.
Qed.

Lemma echo_check (sent : option str) (s : str) :
  match sent with Some x => str_eqb x s | None => false end = true
  <-> sent = Some s.
Proof.
  destruct sent as [x|]; [|split; discriminate].
  rewrite str_eqb_eq. split; congruence.
Qed.

Lemma send_clip_state (clip : Clip) (net : sendto_reply) (self : NetClip) :
  res_state (send_clip clip net self)
  = with_last_sent (Some (get_text clip)) self.
Proof.
  unfold send_clip. destruct (utf8_encode (get_text clip)); [|reflexivity].
  destruct net; reflexivity.
Qed.

Lemma send_clip_returns (clip : Clip) (net : sendto_reply) (self : NetClip) :
  net = SendtoOk -> utf8_encode (get_text clip) <> None ->
  exists data,
    utf8_encode (get_text clip) = Some data
    /\ send_clip clip net self
       = returned (VInt (len data))
                  (with_last_sent (Some (get_text clip)) self) [Sendto data].
Proof.
  intros -> H. unfold send_clip.
  destruct (utf8_encode (get_text clip)) as [data|]; [|congruence].
  exists data. split; reflexivity.
Qed.

(** The owner-change handler past its two guards: the new clip is at the
    front of the history less its old entry, and the history is capped
    unless the automatic send raised. *)
Lemma on_clipboard_change_records (s : str) (net : sendto_reply)
      (self : NetClip) :
  s <> [] -> same_as_last s (clips self) = false ->
  let r := on_clipboard_change (Some s) net self in
  let entered :=
    mkClip s (menu_max_width self) :: remove_duplicates s (clips self) in
  received_clips (res_state r) = received_clips self
  /\ clip_max_count (res_state r) = clip_max_count self
  /\ menu_max_width (res_state r) = menu_max_width self
  /\ match res_outcome r with
     | Returned v =>
         v = VBool true
         /\ clips (res_state r) = cap (clip_max_count self) entered
     | Raised _ =>
         autosend self = true /\ clips (res_state r) = entered
     end
  /\ (autosend self = false
      \/ (net = SendtoOk
          /\ utf8_encode (get_text (mkClip s (menu_max_width self)))
             <> None) ->
      res_outcome r = Returned (VBool true)).
Proof.
  intros Hs Hlast. unfold on_clipboard_change.
  rewrite (falsy_false s Hs), Hlast.
  destruct self as [cl rc cnt w ls asend arecv]. simpl.
  destruct asend; simpl.
  - unfold send_clip. simpl.
    destruct (utf8_encode (get_text (mkClip s w))) as [data|]; simpl.
    + destruct net; simpl; repeat split; auto.
      intros [H | [H _]]; discriminate.
    + repeat split; auto. intros [H | [_ H]]; congruence.
  - repeat split; auto.
Qed.

(** The receive handler past its three guards. *)
Lemma on_clip_received_records (data : bytes) (address : str * Z)
      (s : str) (self : NetClip) :
  utf8_decode data = Some s -> last_sent self <> Some s ->
  s <> [] -> same_as_last s (received_clips self) = false ->
  let r := on_clip_received data address self in
  let clip := mkClip s (menu_max_width self) in
  res_outcome r = Returned (VBool true)
  /\ received_clips (res_state r)
     = cap (clip_max_count self)
           (clip :: remove_duplicates s (received_clips self))
  /\ clips (res_state r) = clips self
  /\ clip_max_count (res_state r) = clip_max_count self
  /\ menu_max_width (res_state r) = menu_max_width self
  /\ last_sent (res_state r) = last_sent self
  /\ (exists summary,
         In (NotificationShow summary (get_itemlabel clip)) (res_effects r))
  /\ (autoreceive self = true ->
      In (ClipboardSetText (get_text clip)) (res_effects r)).
Proof.
  intros Hd Hsent Hs Hlast. unfold on_clip_received. rewrite Hd.
  destruct (match last_sent self with
            | Some sent => str_eqb sent s
            | None => false
            end) eqn:E.
  { apply echo_check in E. congruence. }
  rewrite (falsy_false s Hs), Hlast.
  destruct self as [cl rc cnt w ls asend arecv]. simpl.
  repeat split; auto.
  - destruct arecv; simpl; eauto 6.
  - intros ->. simpl. auto.
Qed.

(** What the handlers never touch. *)
Lemma dispatch_frame (self : NetClip) (e : event) :
  clip_max_count (step self e) = clip_max_count self
  /\ menu_max_width (step self e) = menu_max_width self.
Proof.
  unfold step.
  destruct e as [t net|datagram address|clip net|clip| |]; cbn [dispatch].
  - unfold on_clipboard_change. destruct t as [s|]; [|split; reflexivity].
    destruct (falsy s); [split; reflexivity|].
    destruct (same_as_last s (clips self)); [split; reflexivity|].
    destruct (autosend _); simpl; [|split; reflexivity].
    unfold send_clip.
    destruct (utf8_encode _); [destruct net|]; split; reflexivity.
  - unfold on_clip_received.
    destruct (utf8_decode (recvfrom 4096 datagram)) as [s|];
      [|split; reflexivity].
    destruct (match last_sent self with Some _ => _ | None => _ end);
      [split; reflexivity|].
    destruct (falsy s); [split; reflexivity|].
    destruct (same_as_last s (received_clips self)); split; reflexivity.
  - rewrite send_clip_state. split; reflexivity.
  - split; reflexivity.
  - split; reflexivity.
  - split; reflexivity.
Qed.

Lemma store_ok_record (count : Z) (s : str) (w : Z) (l : list Clip) :
  store_ok count l -> s <> [] ->
  store_ok count (cap count (mkClip s w :: remove_duplicates s l)).
Proof.
  intros Hok Hs. pose proof Hok as (Hnd & Hlen & Hne).
  rewrite remove_duplicates_NoDup by exact Hnd.
  apply cap_store_ok.
  - repeat split.
    + apply without_NoDup; exact Hnd.
    + pose proof (without_length s l). unfold len in *. lia.
    + apply without_Forall; exact Hne.
  - apply without_not_in.
  - exact Hs.
Qed.

(** Both histories stay within the invariant through every handler that
    is not left by an exception of the automatic send. *)
Lemma step_store_ok (self : NetClip) (e : event) :
  store_ok (clip_max_count self) (clips self) ->
  store_ok (clip_max_count self) (received_clips self) ->
  (forall wait_for_text net x,
      e = OwnerChange wait_for_text net ->
      res_outcome (dispatch self e) <> Raised x) ->
  store_ok (clip_max_count self) (clips (step self e))
  /\ store_ok (clip_max_count self) (received_clips (step self e)).
Proof.
  intros Hc Hr Hcompl. unfold step.
  destruct e as [t net|datagram address|clip net|clip| |]; cbn [dispatch].
  - destruct t as [s|]; [|split; assumption].
    destruct (falsy s) eqn:Hf.
    { unfold on_clipboard_change. rewrite Hf. split; assumption. }
    destruct (same_as_last s (clips self)) eqn:Hl.
    { unfold on_clipboard_change. rewrite Hf, Hl. split; assumption. }
    assert (Hs : s <> []) by (destruct s; [discriminate | congruence]).
    pose proof (on_clipboard_change_records s net self Hs Hl)
      as (Hrc & _ & _ & Hout & _).
    rewrite Hrc. split; [|assumption].
    specialize (Hcompl (Some s) net). cbn [dispatch] in Hcompl.
    destruct (res_outcome (on_clipboard_change (Some s) net self)) as [v|x].
    + destruct Hout as [_ ->]. apply store_ok_record; assumption.
    + exfalso. apply (Hcompl x); reflexivity.
  - set (data := recvfrom 4096 datagram).
    destruct (utf8_decode data) as [s|] eqn:Hd.
    2:{ unfold on_clip_received. rewrite Hd. split; assumption. }
    destruct (match last_sent self with
              | Some sent => str_eqb sent s
              | None => false
              end) eqn:He.
    { unfold on_clip_received. rewrite Hd, He. split; assumption. }
    destruct (falsy s) eqn:Hf.
    { unfold on_clip_received. rewrite Hd, He, Hf. split; assumption. }
    destruct (same_as_last s (received_clips self)) eqn:Hl.
    { unfold on_clip_received. rewrite Hd, He, Hf, Hl. split; assumption. }
    assert (Hs : s <> []) by (destruct s; [discriminate | congruence]).
    assert (Hsent : last_sent self <> Some s).
    { intros H. apply echo_check in H. congruence. }
    pose proof (on_clip_received_records data address s self Hd Hsent Hs Hl)
      as (_ & Hrc & Hcl & _).
    rewrite Hrc, Hcl. split; [assumption|].
    apply store_ok_record; assumption.
  - rewrite send_clip_state. split; assumption.
  - split; assumption.
  - split; assumption.
  - split; assumption.
Qed.

(** From the start of the program on, while no owner-change handler is
    left by an exception, neither history exceeds the capacity nor holds
    a text twice. *)
Lemma run_store_ok (events : list event) :
  forall self : NetClip,
    store_ok (clip_max_count self) (clips self) ->
    store_ok (clip_max_count self) (received_clips self) ->
    completes self events ->
    store_ok (clip_max_count self) (clips (run self events))
    /\ store_ok (clip_max_count self) (received_clips (run self events)).
Proof.
  induction events as [|e events IH]; intros self Hc Hr Hcompl.
  - split; assumption.
  - destruct Hcompl as [He Hrest]. simpl.
    destruct (step_store_ok self e Hc Hr He) as [Hc' Hr'].
    destruct (dispatch_frame self e) as [Hcount _].
    rewrite <- Hcount in Hc', Hr' |- *.
    apply IH; assumption.
Qed.

Lemma init_store_ok (count width : Z) (asend arecv : bool) :
  (0 <= count)%Z ->
  store_ok count (clips (init count width asend arecv))
  /\ store_ok count (received_clips (init count width asend arecv)).
Proof.
  intros H. split; (repeat split; [constructor | exact H | constructor]).
Qed.

Lemma hd_cap (count : Z) (c : Clip) (l : list Clip) :
  (1 <= count)%Z -> exists l', cap count (c :: l) = c :: l'.
Proof.
  intros H. unfold cap. destruct (Z.gtb_spec (len (c :: l)) count) as [Hgt|_].
  - destruct l as [|d l]; [unfold len in Hgt; simpl in Hgt; lia|].
    exists (removelast (d :: l)). reflexivity.
  - exists l. reflexivity.
Qed.

Lemma cap_full (count : Z) (c : Clip) (l : list Clip) :
  (1 <= count)%Z -> len l = count ->
  cap count (c :: l) = c :: removelast l
  /\ len (c :: removelast l) = count.
Proof.
  intros H Hl.
  assert (Hne : l <> []) by (intros ->; unfold len in Hl; simpl in Hl; lia).
  rewrite cap_over by (unfold len in *; simpl length; lia).
  destruct l as [|d l]; [congruence|]. split; [reflexivity|].
  change (len (c :: removelast (d :: l)))
    with (Z.of_nat (S (length (removelast (d :: l))))).
  pose proof (len_removelast (d :: l) Hne) as E. unfold len in *. lia.
Qed.

Lemma absent_not_last (s : str) (l : list Clip) :
  ~ In s (texts l) -> same_as_last s l = false.
Proof.
  intros H. destruct (same_as_last s l) eqn:E; [|reflexivity].
  apply same_as_last_true in E. destruct l as [|c l]; [discriminate|].
  simpl in E. injection E as E. exfalso. apply H. left. exact E.
Qed.

(** The texts the wire payload covers with one octet per character. *)
Lemma wire_payload_ascii (c : Clip) :
  Forall (fun x => (x < 0x80)%N) (text c) ->
  exists data,
    utf8_encode (get_text c) = Some data
    /\ (len data <= 1472)%Z
    /\ ((1472 <= len (text c))%Z -> len data = 1472%Z).
Proof.
  intros H.
  destruct (utf8_encode_ascii (get_text c)) as (data & Hd & Hl).
  { rewrite get_text_firstn. rewrite Forall_forall in H |- *.
    intros x Hx. apply H. rewrite <- (firstn_skipn 1472 (text c)).
    apply in_or_app. left. exact Hx. }
  exists data. split; [exact Hd|].
  unfold len. rewrite Hl, get_text_firstn, length_firstn. split; lia.
Qed.

(** The capacity bound and the absence of repeated texts, from the start
    of the program, for runs in which no automatic send raises. *)
Lemma histories_bounded_while_sends_succeed
      (count width : Z) (asend arecv : bool) (events : list event) :
  (0 <= count)%Z ->
  completes (init count width asend arecv) events ->
  let self := run (init count width asend arecv) events in
  (len (clips self) <= count)%Z /\ NoDup (texts (clips self))
  /\ (len (received_clips self) <= count)%Z
  /\ NoDup (texts (received_clips self)).
Proof.
  intros H Hc.
  destruct (init_store_ok count width asend arecv H) as [H1 H2].
  destruct (run_store_ok events (init count width asend arecv) H1 H2 Hc)
    as [(A & B & _) (C & D & _)].
  cbv zeta. simpl clip_max_count in *. tauto.
Qed.

(** The datagram [send_clip] hands to the socket, when it comes back
    whole through [recvfrom], is ignored by the receive handler. *)
Lemma own_datagram_is_ignored (clip : Clip) (self : NetClip)
      (data : bytes) (address : str * Z) :
  res_effects (send_clip clip SendtoOk self) = [Sendto data] ->
  (len data <= 4096)%Z ->
  let sent := res_state (send_clip clip SendtoOk self) in
  dispatch sent (DatagramIn data address) = returned (VBool true) sent [].
Proof.
  intros Hout Hlen sent. cbn [dispatch].
  assert (Hdata : utf8_encode (get_text clip) = Some data).
  { unfold send_clip in Hout.
    destruct (utf8_encode (get_text clip)) as [d|]; [|discriminate].
    simpl in Hout. congruence. }
  assert (Hrecv : recvfrom 4096 data = data).
  { unfold recvfrom. apply firstn_all2. unfold len in Hlen. lia. }
  rewrite Hrecv. unfold on_clip_received.
  rewrite (utf8_decode_encode _ _ Hdata).
  unfold sent. rewrite send_clip_state. cbn [last_sent with_last_sent].
  rewrite str_eqb_refl. reflexivity.
Qed.

(* ===================================================================== *)
(** ** The claims                                                         *)
(* ===================================================================== *)

(** A text of 2000 ASCII characters goes out as 1472 octets, and cutting
    the payload again gives the same payload. *)
Lemma wire_payload_of_2000_ascii_characters :
  let clip := mkClip (repeat 0x61%N 2000) 30 in
  option_map (@length byte) (utf8_encode (get_text clip)) = Some 1472%nat
  /\ get_text (mkClip (get_text clip) 30) = get_text clip.
Proof. vm_compute. split; reflexivity. Qed.

(** C1.  [get_text] cuts the text to 1472 characters, not to 1472
    octets: a clip of 1000 times U+00E9 is left whole by [get_text], and
    the payload [send_clip] builds from it has 2000 octets, more than the
    1472 a single datagram is meant to carry. *)
Theorem C1_wire_payload_counts_characters :
  let clip := mkClip (repeat 0xE9%N 1000) 30 in
  get_text clip = text clip
  /\ option_map (@length byte) (utf8_encode (get_text clip)) = Some 2000%nat
  /\ (len (get_text clip) <= 1472)%Z.
Proof. vm_compute. repeat split; discriminate. Qed.

(** C2 (as the code has it).  A datagram that is not valid UTF-8 makes
    the receive handler raise UnicodeDecodeError before it touches
    anything: the state is the one before the call and no collaborator is
    called. *)
Theorem C2_undecodable_datagram_raises_before_any_change :
  forall (data : bytes) (address : str * Z) (self : NetClip),
    utf8_decode data = None ->
    on_clip_received data address self = raised UnicodeDecodeError self [].
Proof.
  intros data address self H. unfold on_clip_received. rewrite H. reflexivity.
Qed.

Lemma C2_witness :
  utf8_decode [xff] = None
  /\ on_clip_received [xff] (lit "10.0.0.2", 10000%Z)
                      (init 15 30 false false)
     = raised UnicodeDecodeError (init 15 30 false false) [].
Proof.
  split; [reflexivity|].
  apply (C2_undecodable_datagram_raises_before_any_change
           [xff] (lit "10.0.0.2", 10000%Z) (init 15 30 false false)).
  reflexivity.
Defined.

(** C2, counterexample.  On the one-octet datagram 0xFF the handler does
    not return: the decode error leaves it as an exception. *)
Lemma C2_handler_does_not_return :
  utf8_decode [xff] = None
  /\ res_outcome (on_clip_received [xff] (lit "10.0.0.2", 10000%Z)
                                   (init 15 30 false false))
     = Raised UnicodeDecodeError.
Proof. split; reflexivity. Qed.

(** C3 (as the code has it).  [copy_clip] hands the clipboard the wire
    payload of the clip, its first 1472 characters, and leaves the state
    alone; that is the stored text itself when the text has at most 1472
    characters. *)
Theorem C3_copy_clip_hands_over_the_wire_payload :
  forall (clip : Clip) (self : NetClip),
    copy_clip clip self
    = returned VNone self [ClipboardSetText (get_text clip); ClipboardStore]
    /\ get_text clip = firstn 1472 (text clip)
    /\ ((len (text clip) <= 1472)%Z -> get_text clip = text clip).
Proof.
  intros clip self. split; [reflexivity|]. split.
  - apply get_text_firstn.
  - apply get_text_short.
Qed.

Lemma C3_witness :
  (len (text (mkClip (lit "hello") 30)) <= 1472)%Z
  /\ get_text (mkClip (lit "hello") 30) = lit "hello".
Proof.
  split; [vm_compute; discriminate|].
  apply (C3_copy_clip_hands_over_the_wire_payload
           (mkClip (lit "hello") 30) (init 15 30 false false)).
  vm_compute; discriminate.
Defined.

(** C3, counterexample.  For a clip of 1473 characters the clipboard is
    not given the stored text: it gets 1472 characters. *)
Lemma C3_long_clip_is_copied_cut :
  let clip := mkClip (repeat 0x61%N 1473) 30 in
  res_effects (copy_clip clip (init 15 30 false true))
  = [ClipboardSetText (repeat 0x61%N 1472); ClipboardStore]
  /\ text clip <> repeat 0x61%N 1472.
Proof.
  split; [vm_compute; reflexivity|].
  intros H. apply (f_equal (@length N)) in H.
  vm_compute in H. discriminate.
Qed.

(** C4, at the failing input.  Capacity 1, automatic send on: "a" is
    copied and sent, then "b" is copied while [sendto] raises OSError.
    The handler is left between the insertion and the cap, and the
    outgoing history keeps two entries. *)
Theorem C4_history_over_capacity_after_failed_send :
  let self :=
    run (init 1 30 true false)
        [OwnerChange (Some (lit "a")) SendtoOk;
         OwnerChange (Some (lit "b")) SendtoOSError] in
  texts (clips self) = [lit "b"; lit "a"]
  /\ clip_max_count self = 1%Z
  /\ (len (clips self) > clip_max_count self)%Z.
Proof. vm_compute. repeat split. Qed.

(** C5 (as the code has it).  After [send_clip] of a clip, [last_sent]
    is the clip's wire payload.  A datagram that decodes to that payload
    is ignored: the handler returns True, the state is the one before and
    no collaborator is called.  A datagram that decodes to any other
    non-empty text [Y] is accepted: with a capacity of at least one, [Y]
    is afterwards the most recent entry of the incoming history, and
    unless it already was, the handler returns True and a notification
    with the label of [Y] is shown. *)
Theorem C5_echo_of_the_wire_payload_is_ignored :
  forall (clip : Clip) (net : sendto_reply) (self : NetClip)
         (echo other : bytes) (Y : str) (address : str * Z),
    utf8_decode echo = Some (get_text clip) ->
    utf8_decode other = Some Y -> Y <> [] -> Y <> get_text clip ->
    (1 <= clip_max_count self)%Z ->
    let sent := res_state (send_clip clip net self) in
    let r := on_clip_received other address sent in
    last_sent sent = Some (get_text clip)
    /\ on_clip_received echo address sent = returned (VBool true) sent []
    /\ hd_error (texts (received_clips (res_state r))) = Some Y
    /\ (same_as_last Y (received_clips self) = false ->
        res_outcome r = Returned (VBool true)
        /\ exists summary,
            In (NotificationShow
                  summary (get_itemlabel (mkClip Y (menu_max_width self))))
               (res_effects r)).
Proof.
  intros clip net self echo other Y address He Ho HY Hne Hcount sent r.
  assert (Hsent : last_sent sent = Some (get_text clip)).
  { unfold sent. rewrite send_clip_state. reflexivity. }
  assert (Hrc : received_clips sent = received_clips self).
  { unfold sent. rewrite send_clip_state. reflexivity. }
  assert (Hcnt : clip_max_count sent = clip_max_count self).
  { unfold sent. rewrite send_clip_state. reflexivity. }
  assert (Hw : menu_max_width sent = menu_max_width self).
  { unfold sent. rewrite send_clip_state. reflexivity. }
  assert (Hother : last_sent sent <> Some Y) by congruence.
  split; [exact Hsent|]. split.
  { unfold on_clip_received. rewrite He, Hsent, str_eqb_refl. reflexivity. }
  destruct (same_as_last Y (received_clips sent)) eqn:Hl.
  - split.
    + assert (E : res_state r = sent).
      { unfold r, on_clip_received. rewrite Ho.
        destruct (match last_sent sent with
                  | Some x => str_eqb x Y
                  | None => false
                  end) eqn:E; [reflexivity|].
        rewrite (falsy_false Y HY), Hl. reflexivity. }
      rewrite E. apply same_as_last_true. exact Hl.
    + rewrite <- Hrc, Hl. discriminate.
  - pose proof (on_clip_received_records other address Y sent Ho Hother HY Hl)
      as (Hout & Hrec & _ & _ & _ & _ & Hshow & _).
    fold r in Hout, Hrec, Hshow. split.
    + rewrite Hrec, Hcnt.
      destruct (hd_cap (clip_max_count self)
                       (mkClip Y (menu_max_width sent))
                       (remove_duplicates Y (received_clips sent)) Hcount)
        as (l' & ->).
      reflexivity.
    + intros _. split; [exact Hout|]. rewrite <- Hw. exact Hshow.
Qed.

Lemma C5_witness :
  let clip := mkClip (lit "X") 30 in
  let self := init 15 30 false false in
  let address := (lit "10.0.0.2", 10000%Z) in
  let sent := res_state (send_clip clip SendtoOk self) in
  let r := on_clip_received [x59] address sent in
  utf8_decode [x58] = Some (get_text clip)
  /\ utf8_decode [x59] = Some (lit "Y")
  /\ last_sent sent = Some (lit "X")
  /\ on_clip_received [x58] address sent = returned (VBool true) sent []
  /\ hd_error (texts (received_clips (res_state r))) = Some (lit "Y").
Proof.
  intros clip self address sent r.
  split; [reflexivity|]. split; [reflexivity|].
  destruct (C5_echo_of_the_wire_payload_is_ignored
              clip SendtoOk self [x58] [x59] (lit "Y") address)
    as (H1 & H2 & H3 & _).
  - reflexivity.
  - reflexivity.
  - discriminate.
  - discriminate.
  - vm_compute; discriminate.
  - split; [exact H1|]. split; [exact H2 | exact H3].
Defined.

(** C5, counterexample.  A clip of 1473 times "a" is sent; a datagram
    then arrives whose decoded text is that same text of 1473
    characters.  [last_sent] holds 1472 characters, so the datagram is
    not ignored: it enters the incoming history and a notification is
    shown. *)
Lemma C5_echo_of_a_long_text_is_recorded :
  let X := repeat 0x61%N 1473 in
  let sent :=
    res_state (send_clip (mkClip X 30) SendtoOk (init 15 30 false false)) in
  let r := on_clip_received (repeat x61 1473) (lit "10.0.0.2", 10000%Z) sent in
  utf8_decode (repeat x61 1473) = Some X
  /\ texts (received_clips (res_state r)) = [X]
  /\ length (res_effects r) = 2%nat.
Proof. vm_compute. repeat split. Qed.

(** C6 (as the code has it).  With a capacity of at least one, a full
    history and a non-empty text it does not hold: when the handler runs
    to its end, the new clip is the head, the oldest entry is gone, the
    other entries follow in their order, and the length is the capacity
    again.  This holds for the owner-change handler when it sends nothing
    or the send succeeds, and for the receive handler when the text is
    not the last one sent. *)
Theorem C6_full_history_evicts_the_oldest :
  forall (self : NetClip) (s : str) (net : sendto_reply)
         (data : bytes) (address : str * Z),
    (1 <= clip_max_count self)%Z -> s <> [] ->
    let clip := mkClip s (menu_max_width self) in
    (len (clips self) = clip_max_count self ->
     ~ In s (texts (clips self)) ->
     autosend self = false
     \/ (net = SendtoOk /\ utf8_encode (get_text clip) <> None) ->
     let r := on_clipboard_change (Some s) net self in
     res_outcome r = Returned (VBool true)
     /\ clips (res_state r) = clip :: removelast (clips self)
     /\ len (clips (res_state r)) = clip_max_count self)
    /\
    (len (received_clips self) = clip_max_count self ->
     ~ In s (texts (received_clips self)) ->
     utf8_decode data = Some s -> last_sent self <> Some s ->
     let r := on_clip_received data address self in
     res_outcome r = Returned (VBool true)
     /\ received_clips (res_state r) = clip :: removelast (received_clips self)
     /\ len (received_clips (res_state r)) = clip_max_count self).
Proof.
  intros self s net data address Hcount Hs clip. split.
  - intros Hfull Habsent Hsend r.
    pose proof (on_clipboard_change_records
                  s net self Hs (absent_not_last s _ Habsent))
      as (_ & _ & _ & Hout & Hret).
    fold r in Hout, Hret. specialize (Hret Hsend). rewrite Hret in Hout.
    destruct Hout as [_ Hout].
    rewrite (remove_duplicates_absent s _ Habsent) in Hout.
    destruct (cap_full (clip_max_count self) clip (clips self) Hcount Hfull)
      as [E1 E2].
    fold clip in Hout. rewrite E1 in Hout. rewrite Hout. auto.
  - intros Hfull Habsent Hd Hsent r.
    pose proof (on_clip_received_records
                  data address s self Hd Hsent Hs
                  (absent_not_last s _ Habsent))
      as (Hout & Hrec & _).
    fold r in Hout, Hrec.
    rewrite (remove_duplicates_absent s _ Habsent) in Hrec.
    destruct (cap_full (clip_max_count self) clip (received_clips self)
                       Hcount Hfull) as [E1 E2].
    fold clip in Hrec. rewrite E1 in Hrec. rewrite Hrec. auto.
Qed.

Lemma C6_witness :
  let self :=
    mkNetClip [mkClip (lit "b") 30; mkClip (lit "a") 30]
              [mkClip (lit "y") 30; mkClip (lit "x") 30]
              2 30 None false false in
  let address := (lit "10.0.0.2", 10000%Z) in
  clips (res_state (on_clipboard_change (Some (lit "c")) SendtoOk self))
  = [mkClip (lit "c") 30; mkClip (lit "b") 30]
  /\ received_clips (res_state (on_clip_received [x63] address self))
     = [mkClip (lit "c") 30; mkClip (lit "y") 30].
Proof.
  intros self address.
  destruct (C6_full_history_evicts_the_oldest
              self (lit "c") SendtoOk [x63] address) as [H1 H2].
  - vm_compute; discriminate.
  - discriminate.
  - split.
    + apply H1.
      * reflexivity.
      * vm_compute. intros [H | [H | []]]; discriminate.
      * left. reflexivity.
    + apply H2.
      * reflexivity.
      * vm_compute. intros [H | [H | []]]; discriminate.
      * reflexivity.
      * discriminate.
Defined.

(** C6, counterexample.  With capacity 0 the empty history is full; the
    new clip is inserted and popped at once, so it does not become the
    head. *)
Lemma C6_capacity_zero_keeps_nothing :
  let self := init 0 30 false false in
  len (clips self) = clip_max_count self
  /\ clips (res_state (on_clipboard_change (Some (lit "a")) SendtoOk self))
     = []
  /\ received_clips
       (res_state (on_clip_received [x61] (lit "10.0.0.2", 10000%Z) self))
     = [].
Proof. vm_compute. repeat split. Qed.

(** X24.  In a history that satisfies its invariant (no text twice, at
    most as many entries as the capacity, no empty text), recording the
    text of an entry that is not the head takes that entry out of its
    place and puts a clip with the text at the front; the head, the
    entries before the old place and those after it follow in their
    order, and none of them has the text.  The owner-change handler does
    so whatever the socket answers; the receive handler does so when the
    text is not the last one sent. *)
Theorem X24_existing_entry_moves_to_the_front_within_capacity :
  forall (self : NetClip) (h c : Clip) (pre post : list Clip)
         (net : sendto_reply) (data : bytes) (address : str * Z),
    let moved := mkClip (text c) (menu_max_width self) in
    (store_ok (clip_max_count self) (clips self) ->
     clips self = h :: pre ++ c :: post ->
     clips (res_state (on_clipboard_change (Some (text c)) net self))
     = moved :: h :: pre ++ post
     /\ ~ In (text c) (texts (h :: pre ++ post)))
    /\
    (store_ok (clip_max_count self) (received_clips self) ->
     received_clips self = h :: pre ++ c :: post ->
     utf8_decode data = Some (text c) -> last_sent self <> Some (text c) ->
     received_clips (res_state (on_clip_received data address self))
     = moved :: h :: pre ++ post
     /\ ~ In (text c) (texts (h :: pre ++ post))).
Proof.
  intros self h c pre post net data address moved.
  assert (Hcore :
    forall l, store_ok (clip_max_count self) l -> l = h :: pre ++ c :: post ->
      text c <> []
      /\ same_as_last (text c) l = false
      /\ remove_duplicates (text c) l = h :: pre ++ post
      /\ ~ In (text c) (texts (h :: pre ++ post))
      /\ cap (clip_max_count self) (moved :: h :: pre ++ post)
         = moved :: h :: pre ++ post).
  { intros l (Hnd & Hlen & Hne) ->.
    assert (Hout : ~ In (text c) (texts (h :: pre ++ post))).
    { change (h :: pre ++ c :: post) with ((h :: pre) ++ c :: post) in Hnd.
      unfold texts in Hnd. rewrite map_app in Hnd. simpl map in Hnd.
      apply NoDup_remove_2 in Hnd.
      change (h :: pre ++ post) with ((h :: pre) ++ post).
      unfold texts. rewrite map_app. exact Hnd. }
    split.
    { rewrite Forall_forall in Hne. apply Hne. right.
      apply in_or_app. right. left. reflexivity. }
    split.
    { apply Clip_eq_false. intros E. apply Hout. left. exact E. }
    split.
    { rewrite remove_duplicates_NoDup by exact Hnd.
      apply (without_middle c (h :: pre) post). exact Hnd. }
    split; [exact Hout|].
    apply cap_fits. unfold len in *. simpl length in *.
    rewrite length_app in *. simpl length in *. lia. }
  split.
  - intros Hok Hl.
    destruct (Hcore _ Hok Hl) as (Hs & Hlast & Hrm & Hout & Hcap).
    split; [|exact Hout].
    pose proof (on_clipboard_change_records (text c) net self Hs Hlast)
      as (_ & _ & _ & Hres & _).
    rewrite Hrm in Hres. fold moved in Hres.
    destruct (res_outcome (on_clipboard_change (Some (text c)) net self)).
    + destruct Hres as [_ ->]. exact Hcap.
    + destruct Hres as [_ ->]. reflexivity.
  - intros Hok Hl Hd Hsent.
    destruct (Hcore _ Hok Hl) as (Hs & Hlast & Hrm & Hout & Hcap).
    split; [|exact Hout].
    pose proof (on_clip_received_records
                  data address (text c) self Hd Hsent Hs Hlast)
      as (_ & Hrec & _).
    rewrite Hrm in Hrec. fold moved in Hrec. rewrite Hrec. exact Hcap.
Qed.

Lemma X24_witness :
  let self :=
    mkNetClip [mkClip (lit "c") 30; mkClip (lit "b") 30; mkClip (lit "a") 30]
              [mkClip (lit "c") 30; mkClip (lit "b") 30; mkClip (lit "a") 30]
              3 30 None true false in
  let address := (lit "10.0.0.2", 10000%Z) in
  clips (res_state (on_clipboard_change (Some (lit "b")) SendtoOSError self))
  = [mkClip (lit "b") 30; mkClip (lit "c") 30; mkClip (lit "a") 30]
  /\ received_clips (res_state (on_clip_received [x62] address self))
     = [mkClip (lit "b") 30; mkClip (lit "c") 30; mkClip (lit "a") 30].
Proof.
  intros self address.
  assert (Hok : store_ok 3 [mkClip (lit "c") 30; mkClip (lit "b") 30;
                            mkClip (lit "a") 30]).
  { split; [|split].
    - repeat constructor; vm_compute; intuition discriminate.
    - vm_compute; discriminate.
    - repeat constructor; discriminate. }
  destruct (X24_existing_entry_moves_to_the_front_within_capacity
              self (mkClip (lit "c") 30) (mkClip (lit "b") 30)
              [] [mkClip (lit "a") 30] SendtoOSError [x62] address)
    as [H1 H2].
  split.
  - apply H1; [exact Hok | reflexivity].
  - apply H2; [exact Hok | reflexivity | reflexivity | discriminate].
Defined.

(** C7, at the failing input.  Capacity 1, automatic send on: "a" and
    then "b" are copied while [sendto] raises OSError, which leaves the
    outgoing history at "b", "a", one entry over the capacity.  Recording
    "a", an entry that is not the head, then moves it to the front and
    the cap pops "b": the other entry of the history is not kept. *)
Theorem C7_move_to_front_evicts_on_an_over_capacity_history :
  let before :=
    run (init 1 30 true false)
        [OwnerChange (Some (lit "a")) SendtoOSError;
         OwnerChange (Some (lit "b")) SendtoOSError] in
  let after := step before (OwnerChange (Some (lit "a")) SendtoOk) in
  texts (clips before) = [lit "b"; lit "a"]
  /\ clip_max_count before = 1%Z
  /\ texts (clips after) = [lit "a"]
  /\ ~ In (lit "b") (texts (clips after)).
Proof.
  vm_compute. repeat split. intros [H | []]. discriminate.
Qed.

(** C8.  Recording the text of the head entry changes nothing.  The
    owner-change handler returns False with the state as it was and no
    collaborator called (no send, no menu update); the receive handler
    returns a boolean, never a clip, with the state as it was and no
    collaborator called (no copy, no notification, no menu update). *)
Theorem C8_head_repeat_changes_nothing :
  forall (self : NetClip) (c : Clip) (rest : list Clip)
         (net : sendto_reply) (data : bytes) (address : str * Z),
    (clips self = c :: rest ->
     on_clipboard_change (Some (text c)) net self
     = returned (VBool false) self [])
    /\
    (received_clips self = c :: rest -> utf8_decode data = Some (text c) ->
     exists b : bool,
       on_clip_received data address self = returned (VBool b) self []).
Proof.
  intros self c rest net data address. split.
  - intros Hl. unfold on_clipboard_change.
    destruct (falsy (text c)); [reflexivity|].
    rewrite Hl. simpl same_as_last. unfold Clip_eq.
    rewrite str_eqb_refl. reflexivity.
  - intros Hl Hd. unfold on_clip_received. rewrite Hd.
    destruct (match last_sent self with
              | Some sent => str_eqb sent (text c)
              | None => false
              end); [exists true; reflexivity|].
    exists false. destruct (falsy (text c)); [reflexivity|].
    rewrite Hl. simpl same_as_last. unfold Clip_eq.
    rewrite str_eqb_refl. reflexivity.
Qed.

Lemma C8_witness :
  let self :=
    mkNetClip [mkClip (lit "b") 30; mkClip (lit "a") 30]
              [mkClip (lit "b") 30; mkClip (lit "a") 30]
              15 30 None true true in
  on_clipboard_change (Some (lit "b")) SendtoOk self
  = returned (VBool false) self []
  /\ exists b : bool,
      on_clip_received [x62] (lit "10.0.0.2", 10000%Z) self
      = returned (VBool b) self [].
Proof.
  intros self.
  destruct (C8_head_repeat_changes_nothing
              self (mkClip (lit "b") 30) [mkClip (lit "a") 30]
              SendtoOk [x62] (lit "10.0.0.2", 10000%Z)) as [H1 H2].
  split.
  - apply H1. reflexivity.
  - apply H2; reflexivity.
Defined.

Lemma int_truediv2_nonneg (w : Z) :
  (0 <= w)%Z -> int_truediv2 w = (w / 2)%Z.
Proof. intros H. unfold int_truediv2. apply Z.quot_div_nonneg; lia. Qed.

(** X25.  The label is computed from the normalized text: the text with
    newlines turned into spaces, less the whitespace at both ends.  For
    a width of at least 4, a normalized text longer than the width is
    rendered as its first [floor(width/2) - 1] characters, the separator
    literal of the source, and its last [floor(width/2) - 1] characters;
    a normalized text that fits the width is rendered unchanged,
    whatever the width. *)
Theorem X25_label_of_a_wide_enough_menu :
  forall c : Clip,
    let norm := normalized (text c) in
    let k := Z.to_nat (max_width c / 2 - 1) in
    ((4 <= max_width c)%Z -> (len norm > max_width c)%Z ->
     get_itemlabel c = take_first k norm ++ ellipsis ++ take_last k norm
     /\ length (take_first k norm) = k /\ length (take_last k norm) = k)
    /\ ((len norm <= max_width c)%Z -> get_itemlabel c = norm)
    /\ (exists pre post,
           replace 10%N 32%N (text c) = pre ++ norm ++ post
           /\ Forall (fun x => isspace x = true) pre
           /\ Forall (fun x => isspace x = true) post)
    /\ match norm with [] => True | x :: _ => isspace x = false end
    /\ match rev norm with [] => True | x :: _ => isspace x = false end
    /\ get_itemlabel (mkClip (lit "abcdefghijklmno") 10)
       = lit "abcd" ++ ellipsis ++ lit "lmno".
Proof.
  intros c norm k.
  destruct (normalized_spec (text c)) as (Hsplit & Hhd & Hlast & _).
  split; [|split; [|split; [exact Hsplit|split; [exact Hhd|split;
    [exact Hlast|reflexivity]]]]].
  - intros Hw Hlen. rewrite get_itemlabel_unfold. fold norm.
    destruct (Z.gtb_spec (len norm) (max_width c)) as [_|]; [|lia].
    rewrite int_truediv2_nonneg by lia.
    assert (Hk : (max_width c / 2 - 1)%Z = Z.of_nat k).
    { unfold k. rewrite Z2Nat.id; [reflexivity|].
      assert (2 <= max_width c / 2)%Z by (apply Z.div_le_lower_bound; lia).
      lia. }
    assert (Hk1 : (0 < k)%nat).
    { assert (2 <= max_width c / 2)%Z by (apply Z.div_le_lower_bound; lia).
      lia. }
    assert (Hk2 : (k <= length norm)%nat).
    { assert (max_width c / 2 <= max_width c)%Z
        by (apply Z.div_le_upper_bound; lia).
      unfold len in Hlen. lia. }
    rewrite Hk, slice_to_firstn, slice_from_neg by assumption.
    split; [reflexivity|]. unfold take_first, take_last.
    rewrite length_firstn, length_skipn. lia.
  - intros Hlen. rewrite get_itemlabel_unfold. fold norm.
    destruct (Z.gtb_spec (len norm) (max_width c)) as [|_]; [lia|reflexivity].
Qed.

Lemma X25_witness :
  let c := mkClip (lit "  one" ++ [10%N] ++ lit "two three four  ") 8 in
  (4 <= max_width c)%Z
  /\ (len (normalized (text c)) > max_width c)%Z
  /\ get_itemlabel c = lit "one" ++ ellipsis ++ lit "our"
  /\ (len (normalized (text (mkClip (lit " ab ") 2))) <= 2)%Z
  /\ get_itemlabel (mkClip (lit " ab ") 2) = lit "ab".
Proof.
  intros c.
  split; [vm_compute; discriminate|]. split; [vm_compute; reflexivity|].
  split.
  - apply (X25_label_of_a_wide_enough_menu c);
      [vm_compute; discriminate | vm_compute; reflexivity].
  - split; [vm_compute; discriminate|].
    apply (X25_label_of_a_wide_enough_menu (mkClip (lit " ab ") 2)).
    vm_compute; discriminate.
Defined.

(** C9, at the failing inputs.  For width 10 and "abcdefghijklmno" the
    label is "abcd" and "lmno" around the three characters U+00E2,
    U+20AC, U+00A6 that the format string holds where U+2026 is meant,
    so it is not "abcd", U+2026, "lmno".  For width 3 and "abcd" the
    halves are not the first and the last [floor(3/2) - 1 = 0]
    characters: the slice [[-0:]] is the whole text, and the label, the
    separator followed by "abcd", is longer than the text it is to
    shorten. *)
Theorem C9_label_at_the_failing_inputs :
  let example := mkClip (lit "abcdefghijklmno") 10 in
  let narrow := mkClip (lit "abcd") 3 in
  get_itemlabel example = lit "abcd" ++ [0xE2; 0x20AC; 0xA6]%N ++ lit "lmno"
  /\ get_itemlabel example <> lit "abcd" ++ HORIZONTAL_ELLIPSIS ++ lit "lmno"
  /\ get_itemlabel narrow = [0xE2; 0x20AC; 0xA6]%N ++ lit "abcd"
  /\ claimed_itemlabel HORIZONTAL_ELLIPSIS narrow = HORIZONTAL_ELLIPSIS
  /\ get_itemlabel narrow <> claimed_itemlabel ellipsis narrow
  /\ get_itemlabel narrow <> claimed_itemlabel HORIZONTAL_ELLIPSIS narrow
  /\ (len (get_itemlabel narrow) > len (text narrow))%Z.
Proof.
  vm_compute. repeat split; discriminate.
Qed.

(** C10.  For width 2 or 3 and a normalized text longer than the width,
    the label is an empty first half, the separator and the whole
    normalized text: the slice [[:0]] is empty and the slice [[-0:]] is
    the whole text.  The label is longer than the width and longer than
    the normalized text. *)
Theorem C10_narrow_menu_label_is_longer_than_the_text :
  forall c : Clip,
    let norm := normalized (text c) in
    (max_width c = 2 \/ max_width c = 3)%Z ->
    (len norm > max_width c)%Z ->
    slice_to norm (int_truediv2 (max_width c) - 1) = []
    /\ slice_from norm (- (int_truediv2 (max_width c) - 1)) = norm
    /\ get_itemlabel c = [] ++ ellipsis ++ norm
    /\ (len (get_itemlabel c) > max_width c)%Z
    /\ (len (get_itemlabel c) > len norm)%Z.
Proof.
  intros c norm Hw Hlen.
  assert (Hk : (int_truediv2 (max_width c) - 1 = 0)%Z)
    by (destruct Hw as [-> | ->]; reflexivity).
  assert (Hlabel : get_itemlabel c = [] ++ ellipsis ++ norm).
  { rewrite get_itemlabel_unfold. fold norm.
    destruct (Z.gtb_spec (len norm) (max_width c)) as [_|]; [|lia].
    rewrite Hk. reflexivity. }
  rewrite Hk. split; [reflexivity|]. split; [reflexivity|].
  split; [exact Hlabel|].
  rewrite Hlabel. unfold len in *.
  change ([] ++ ellipsis ++ norm) with (ellipsis ++ norm).
  rewrite length_app. change (length ellipsis) with 3%nat. lia.
Qed.

Lemma C10_witness :
  let c := mkClip (lit "abcd") 3 in
  (max_width c = 2 \/ max_width c = 3)%Z
  /\ (len (normalized (text c)) > max_width c)%Z
  /\ get_itemlabel c = [] ++ ellipsis ++ lit "abcd"
  /\ (len (get_itemlabel c) > 3)%Z.
Proof.
  intros c.
  destruct (C10_narrow_menu_label_is_longer_than_the_text c)
    as (_ & _ & H1 & H2 & _).
  - right. reflexivity.
  - vm_compute. reflexivity.
  - split; [right; reflexivity|]. split; [vm_compute; reflexivity|].
    split; [exact H1 | exact H2].
Defined.

(* ===================================================================== *)
(** ** The menu                                                           *)
(* ===================================================================== *)

Lemma menu_insert_between (x : Menu.widget) (pre post : list Menu.widget) :
  Menu.insert x (length pre) (pre ++ post) = pre ++ x :: post.
Proof.
  unfold Menu.insert.
  rewrite firstn_app, Nat.sub_diag, firstn_all, firstn_O, app_nil_r.
  rewrite skipn_app, Nat.sub_diag, skipn_all. reflexivity.
Qed.

Lemma menu_insert_items (copy_clip : bool) (clips : list Clip) :
  forall pre post : list Menu.widget,
    Menu.insert_items copy_clip clips (pre ++ post) (length pre)
    = (pre
       ++ map (fun clip =>
                 Menu.MenuItem (get_itemlabel clip) true
                   (Some (if copy_clip then Menu.copy_clip_of clip
                          else Menu.send_clip_of clip)))
              clips
       ++ post,
       (length pre + length clips)%nat).
Proof.
  induction clips as [|clip clips IH]; intros pre post; simpl.
  - rewrite Nat.add_0_r. reflexivity.
  - rewrite menu_insert_between.
    replace (S (length pre)) with (length (pre ++ [Menu.MenuItem
      (get_itemlabel clip) true
      (Some (if copy_clip then Menu.copy_clip_of clip
             else Menu.send_clip_of clip))]))
      by (rewrite length_app; simpl; lia).
    replace (pre ++ Menu.MenuItem (get_itemlabel clip) true
                      (Some (if copy_clip then Menu.copy_clip_of clip
                             else Menu.send_clip_of clip)) :: post)
      with ((pre ++ [Menu.MenuItem (get_itemlabel clip) true
                       (Some (if copy_clip then Menu.copy_clip_of clip
                              else Menu.send_clip_of clip))]) ++ post)
      by (rewrite <- app_assoc; reflexivity).
    rewrite IH. rewrite <- app_assoc. simpl.
    f_equal. rewrite length_app. simpl. lia.
Qed.

Lemma menu_remove_head (child : Menu.widget) (menu : list Menu.widget) :
  Menu.remove child (child :: menu) = menu.
Proof.
  simpl. destruct (Menu.widget_eq_dec child child); congruence.
Qed.

Lemma menu_clear_loop_skips (A : list Menu.widget) :
  forall (k : nat) (rest : list Menu.widget),
    Forall (fun w => Menu.is_separator w = false) A ->
    Menu.clear_loop (A ++ rest) k (A ++ rest) = Menu.clear_loop rest k rest.
Proof.
  induction A as [|a A IH]; intros k rest H; [reflexivity|].
  inversion H as [|a' A' Ha HA]; subst.
  cbn [app Menu.clear_loop]. rewrite Ha. cbn [andb].
  rewrite menu_remove_head. apply IH. exact HA.
Qed.

Lemma menu_clear_loop_all (A : list Menu.widget) (k : nat) :
  Forall (fun w => Menu.is_separator w = false) A ->
  Menu.clear_loop A k A = [].
Proof.
  intros H. rewrite <- (app_nil_r A).
  rewrite menu_clear_loop_skips by exact H. reflexivity.
Qed.

(** Every menu is a run of children that are no separators, followed by
    nothing or by a separator and the rest. *)
Lemma menu_split (menu : list Menu.widget) :
  exists A rest,
    menu = A ++ rest
    /\ Forall (fun w => Menu.is_separator w = false) A
    /\ (rest = [] \/ exists T, rest = Menu.SeparatorMenuItem :: T).
Proof.
  induction menu as [|w menu (A & rest & E & HA & Hrest)].
  - exists [], []. repeat split; auto.
  - destruct w as [|label sensitive activate|label active].
    + exists [], (Menu.SeparatorMenuItem :: menu). repeat split; eauto.
    + exists (Menu.MenuItem label sensitive activate :: A), rest.
      repeat split; [simpl; congruence | constructor; auto | exact Hrest].
    + exists (Menu.CheckMenuItem label active :: A), rest.
      repeat split; [simpl; congruence | constructor; auto | exact Hrest].
Qed.

(** What the clearing loop leaves is empty or begins with a separator. *)
Lemma menu_clear_loop_shape (menu : list Menu.widget) :
  Menu.clear_loop menu 0 menu = []
  \/ exists T, Menu.clear_loop menu 0 menu = Menu.SeparatorMenuItem :: T.
Proof.
  destruct (menu_split menu) as (A & rest & -> & HA & [-> | (X & ->)]).
  - left. rewrite app_nil_r. apply menu_clear_loop_all. exact HA.
  - rewrite menu_clear_loop_skips by exact HA.
    cbn [Menu.clear_loop Menu.is_separator andb Nat.eqb].
    rewrite menu_remove_head.
    destruct (menu_split X) as (B & rest & -> & HB & [-> | (T & ->)]).
    + left. rewrite app_nil_r. apply menu_clear_loop_all. exact HB.
    + right. exists T. rewrite menu_clear_loop_skips by exact HB.
      reflexivity.
Qed.

Lemma menu_group_no_separator (copy_clip : bool) (placeholder header : str)
      (clips : list Clip) :
  Forall (fun w => Menu.is_separator w = false)
         (Menu.group copy_clip placeholder header clips).
Proof.
  unfold Menu.group. constructor; [reflexivity|].
  apply Forall_forall. intros w Hw. apply in_map_iff in Hw.
  destruct Hw as (clip & <- & _). reflexivity.
Qed.

Lemma menu_fill_menu_clips (pre post : list Menu.widget) (clips : list Clip)
      (placeholder header : str) (copy_clip : bool) :
  Menu.fill_menu_clips (pre ++ post) clips (length pre)
                       placeholder header copy_clip
  = (pre ++ Menu.group copy_clip placeholder header clips ++ post,
     (length pre + S (length clips))%nat).
Proof.
  unfold Menu.fill_menu_clips. rewrite menu_insert_between.
  set (h := Menu.MenuItem
              match clips with [] => placeholder | _ :: _ => header end
              false None).
  replace (pre ++ h :: post) with ((pre ++ [h]) ++ post)
    by (rewrite <- app_assoc; reflexivity).
  replace (S (length pre)) with (length (pre ++ [h]))
    by (rewrite length_app; simpl; lia).
  rewrite menu_insert_items. rewrite <- app_assoc. simpl.
  f_equal. rewrite length_app. simpl. lia.
Qed.

Lemma menu_fill_menu_groups (self : NetClip) (menu : list Menu.widget) :
  Menu.fill_menu self menu
  = Menu.groups self ++ Menu.clear_loop menu 0 menu.
Proof.
  unfold Menu.fill_menu, Menu.groups.
  set (T := Menu.clear_loop menu 0 menu).
  set (g1 := Menu.group false (lit "(no items to send yet)")
                        (lit "Click to send on network:") (clips self)).
  pose proof (menu_fill_menu_clips [] T (clips self)
                (lit "(no items to send yet)")
                (lit "Click to send on network:") false) as E1.
  cbn [app length Nat.add] in E1. rewrite E1. fold g1.
  assert (Hl : S (length (clips self)) = length g1).
  { unfold g1, Menu.group. simpl. rewrite length_map. reflexivity. }
  rewrite Hl. rewrite menu_insert_between.
  replace (g1 ++ Menu.SeparatorMenuItem :: T)
    with ((g1 ++ [Menu.SeparatorMenuItem]) ++ T)
    by (rewrite <- app_assoc; reflexivity).
  replace (length g1 + 1)%nat with (length (g1 ++ [Menu.SeparatorMenuItem]))
    by (rewrite length_app; simpl; lia).
  rewrite menu_fill_menu_clips. rewrite <- !app_assoc. reflexivity.
Qed.

(* ===================================================================== *)
(** ** Further properties of the histories                                *)
(* ===================================================================== *)

Lemma remove_loop_length (s : str) (fuel : nat) :
  forall (i : nat) (l : list Clip),
    (length (remove_loop fuel s i l) <= length l)%nat.
Proof.
  induction fuel as [|fuel IH]; intros i l; simpl; [lia|].
  destruct (nth_error l i) as [clip|]; [|lia].
  destruct (Clip_eq clip s).
  - pose proof (IH (S i) (list_remove clip l)).
    pose proof (length_list_remove clip l). lia.
  - apply IH.
Qed.

Lemma remove_duplicates_length (s : str) (l : list Clip) :
  (length (remove_duplicates s l) <= length l)%nat.
Proof. apply remove_loop_length. Qed.

(** X1.  The removal loop ends: on a list of [n] entries it has finished
    after [n] rounds at the latest, and running it with any larger bound
    on the rounds gives the same list. *)
Theorem X1_removal_loop_ends_within_the_length :
  forall (s : str) (l : list Clip) (fuel : nat),
    (length l <= fuel)%nat ->
    remove_loop fuel s 0 l = remove_duplicates s l.
Proof.
  intros s l fuel H. unfold remove_duplicates.
  apply remove_loop_fuel; lia.
Qed.

Lemma X1_witness :
  let l := [mkClip (lit "b") 30; mkClip (lit "a") 30] in
  (length l <= 7)%nat
  /\ remove_loop 7 (lit "a") 0 l = remove_duplicates (lit "a") l.
Proof.
  intros l. split; [vm_compute; lia|].
  apply (X1_removal_loop_ends_within_the_length (lit "a") l 7).
  vm_compute; lia.
Defined.

(** X2.  On a history in which no text occurs twice, the removal loop
    takes out the one entry with the given text and keeps the others in
    their order; if no entry has the text, the history is unchanged.
    Removing entries while iterating does no harm there. *)
Theorem X2_removal_loop_on_distinct_texts :
  forall (s : str) (l : list Clip),
    NoDup (texts l) ->
    remove_duplicates s l = without s l
    /\ ~ In s (texts (remove_duplicates s l))
    /\ (forall pre c post,
           l = pre ++ c :: post -> text c = s ->
           remove_duplicates s l = pre ++ post)
    /\ (~ In s (texts l) -> remove_duplicates s l = l).
Proof.
  intros s l H. rewrite (remove_duplicates_NoDup s l H).
  split; [reflexivity|]. split; [apply without_not_in|]. split.
  - intros pre c post -> <-. apply without_middle. exact H.
  - intros Hs. apply without_none. apply not_in_texts. exact Hs.
Qed.

Lemma X2_witness :
  let l := [mkClip (lit "c") 30; mkClip (lit "b") 30; mkClip (lit "a") 30] in
  NoDup (texts l)
  /\ remove_duplicates (lit "b") l
     = [mkClip (lit "c") 30; mkClip (lit "a") 30].
Proof.
  intros l.
  assert (H : NoDup (texts l)).
  { repeat constructor; vm_compute; intuition discriminate. }
  split; [exact H|].
  destruct (X2_removal_loop_on_distinct_texts (lit "b") l H)
    as (_ & _ & Hmid & _).
  apply (Hmid [mkClip (lit "c") 30] (mkClip (lit "b") 30)
              [mkClip (lit "a") 30]); reflexivity.
Defined.

Lemma half_step (d : nat) : ((S (S d) + 1) / 2 = (d + 1) / 2 + 1)%nat.
Proof.
  replace (S (S d) + 1)%nat with ((d + 1) + 1 * 2)%nat by lia.
  apply Nat.div_add. discriminate.
Qed.

Lemma half_le (d : nat) : ((d + 1) / 2 <= d)%nat.
Proof.
  destruct d as [|d]; [reflexivity|].
  apply Nat.Div0.div_le_upper_bound. lia.
Qed.

Lemma half_sub (n : nat) : (n - (n + 1) / 2 = n / 2)%nat.
Proof.
  assert (H : (n - (n + 1) / 2 = n / 2
               /\ S n - (S n + 1) / 2 = S n / 2)%nat).
  { induction n as [|n [IH1 IH2]]; [split; reflexivity|].
    split; [exact IH2|]. rewrite half_step.
    replace (S (S n)) with (n + 1 * 2)%nat at 2 by lia.
    rewrite Nat.div_add by discriminate.
    pose proof (half_le n). lia. }
  apply H.
Qed.

Lemma skipn_at {A} (i : nat) :
  forall (l : list A) (x : A),
    nth_error l i = Some x -> skipn i l = x :: skipn (S i) l.
Proof.
  induction i as [|i IH]; intros [|y l] x H; try discriminate.
  - simpl in H. injection H as ->. reflexivity.
  - simpl in H. rewrite (skipn_cons i y l). rewrite (IH l x H). reflexivity.
Qed.

Lemma Forall_skipn_keep {A} (P : A -> Prop) (n : nat) :
  forall l : list A, Forall P l -> Forall P (skipn n l).
Proof.
  induction n as [|n IH]; intros [|x l] H; simpl; auto.
  inversion H; subst. apply IH. assumption.
Qed.

(** From an index on which no entry has the text, the loop changes
    nothing. *)
Lemma remove_loop_rest_none (s : str) (fuel : nat) :
  forall (i : nat) (l : list Clip),
    Forall (fun c => Clip_eq c s = false) (skipn i l) ->
    remove_loop fuel s i l = l.
Proof.
  induction fuel as [|fuel IH]; intros i l H; simpl; [reflexivity|].
  destruct (nth_error l i) as [clip|] eqn:E; [|reflexivity].
  rewrite (skipn_at i l clip E) in H. inversion H as [|c' l' Hc Hrest]; subst.
  rewrite Hc. apply IH. exact Hrest.
Qed.

Lemma skipn_past (P : Clip -> Prop) (pre run post : list Clip) (i : nat) :
  (length pre + length run <= i)%nat -> Forall P post ->
  Forall P (skipn i (pre ++ run ++ post)).
Proof.
  intros Hi H. rewrite app_assoc, skipn_app.
  rewrite skipn_all2 by (rewrite length_app; lia).
  simpl. apply Forall_skipn_keep. exact H.
Qed.

Lemma list_remove_run_head (clip x : Clip) (pre rest : list Clip) :
  Forall (fun y => text y <> text clip) pre -> text x = text clip ->
  list_remove clip (pre ++ x :: rest) = pre ++ rest.
Proof.
  intros Hpre Hx. induction Hpre as [|y pre Hy _ IH]; simpl.
  - unfold Clip_eq_clip, Clip_eq. rewrite Hx, str_eqb_refl. reflexivity.
  - apply Clip_eq_clip_false in Hy. rewrite Hy, IH. reflexivity.
Qed.

(** The iterator [j] entries into a run of [j + d] entries with the
    text: the loop takes [ceil(d/2)] more entries off the front of the
    run. *)
Lemma remove_loop_run (s : str) (pre post : list Clip) (fuel : nat) :
  Forall (fun c => text c <> s) pre ->
  Forall (fun c => text c <> s) post ->
  forall (run : list Clip) (j d : nat),
    Forall (fun c => text c = s) run ->
    length run = (j + d)%nat -> (d <= fuel)%nat ->
    remove_loop fuel s (length pre + j) (pre ++ run ++ post)
    = pre ++ skipn ((d + 1) / 2) run ++ post.
Proof.
  intros Hpre Hpost.
  assert (Hpost' : Forall (fun c => Clip_eq c s = false) post).
  { rewrite Forall_forall in Hpost |- *. intros c Hc.
    apply Clip_eq_false. apply Hpost. exact Hc. }
  induction fuel as [|fuel IH]; intros run j d Hrun Hlen Hd.
  - assert (d = 0)%nat by lia. subst d.
    rewrite remove_loop_rest_none; [reflexivity|].
    apply skipn_past; [lia | exact Hpost'].
  - destruct d as [|d].
    { rewrite remove_loop_rest_none; [reflexivity|].
      apply skipn_past; [lia | exact Hpost']. }
    destruct run as [|x run1]; [simpl in Hlen; lia|].
    assert (Hnth : exists clip,
               nth_error (pre ++ (x :: run1) ++ post) (length pre + j)
               = Some clip /\ text clip = s).
    { rewrite nth_error_app2 by lia.
      replace (length pre + j - length pre)%nat with j by lia.
      rewrite nth_error_app1 by lia.
      destruct (nth_error (x :: run1) j) as [clip|] eqn:E.
      - exists clip. split; [reflexivity|].
        rewrite Forall_forall in Hrun. apply Hrun.
        apply (nth_error_In _ _ E).
      - apply nth_error_None in E. lia. }
    destruct Hnth as (clip & Hnth & Hclip).
    cbn [remove_loop]. rewrite Hnth.
    assert (Heq : Clip_eq clip s = true) by (apply Clip_eq_true; exact Hclip).
    rewrite Heq. cbn [app].
    rewrite list_remove_run_head.
    2:{ rewrite Forall_forall in Hpre |- *. intros y Hy.
        rewrite Hclip. apply Hpre. exact Hy. }
    2:{ rewrite Hclip. inversion Hrun; assumption. }
    inversion Hrun as [|x' run' Hx Hrun1]; subst x' run'.
    simpl in Hlen.
    destruct d as [|d].
    + rewrite remove_loop_rest_none; [reflexivity|].
      apply skipn_past; [lia | exact Hpost'].
    + replace (S (length pre + j)) with (length pre + S j)%nat by lia.
      rewrite (IH run1 (S j) d Hrun1) by lia.
      rewrite half_step. rewrite (Nat.add_1_r ((d + 1) / 2)). reflexivity.
Qed.

(** Up to the first entry with the text the loop only advances. *)
Lemma remove_loop_through_prefix (s : str) (pre rest : list Clip)
      (fuel : nat) :
  Forall (fun c => text c <> s) pre ->
  forall m k : nat,
    (k + m = length pre)%nat ->
    remove_loop (m + fuel) s k (pre ++ rest)
    = remove_loop fuel s (length pre) (pre ++ rest).
Proof.
  intros Hpre. induction m as [|m IH]; intros k Hk.
  - replace k with (length pre) by lia. reflexivity.
  - simpl. rewrite nth_error_app1 by lia.
    destruct (nth_error pre k) as [y|] eqn:E.
    + assert (Hy : Clip_eq y s = false).
      { apply Clip_eq_false. rewrite Forall_forall in Hpre.
        apply Hpre. apply (nth_error_In _ _ E). }
      rewrite Hy. apply IH. lia.
    + apply nth_error_None in E. lia.
Qed.

(** X3.  Where the entries with the given text stand next to each other
    in one run of [n] entries and the text occurs nowhere else in the
    list, the removal loop removes the first [ceil(n/2)] entries of the
    run and leaves its last [floor(n/2)]: each removal shifts the next
    entry of the run under the iterator, which then steps over it.  The
    entries before and after the run stay in their order. *)
Theorem X3_removal_loop_halves_a_run_of_equal_texts :
  forall (s : str) (pre run post : list Clip),
    Forall (fun c => text c <> s) pre ->
    Forall (fun c => text c = s) run ->
    Forall (fun c => text c <> s) post ->
    remove_duplicates s (pre ++ run ++ post)
    = pre ++ skipn ((length run + 1) / 2) run ++ post
    /\ length (skipn ((length run + 1) / 2) run) = (length run / 2)%nat.
Proof.
  intros s pre run post Hpre Hrun Hpost. split.
  - unfold remove_duplicates. rewrite !length_app.
    rewrite (remove_loop_through_prefix s pre (run ++ post)
               (length run + length post) Hpre (length pre) 0)
      by reflexivity.
    pose proof (remove_loop_run s pre post (length run + length post)
                  Hpre Hpost run 0 (length run) Hrun eq_refl) as E.
    rewrite Nat.add_0_r in E. apply E. lia.
  - rewrite length_skipn. apply half_sub.
Qed.

Lemma X3_witness :
  let b := mkClip (lit "b") 30 in
  let c := mkClip (lit "c") 30 in
  let a1 := mkClip (lit "a") 10 in
  let a2 := mkClip (lit "a") 20 in
  let a3 := mkClip (lit "a") 30 in
  Forall (fun x => text x = lit "a") [a1; a2; a3]
  /\ remove_duplicates (lit "a") ([b] ++ [a1; a2; a3] ++ [c]) = [b; a3; c].
Proof.
  intros b c a1 a2 a3.
  assert (Hrun : Forall (fun x => text x = lit "a") [a1; a2; a3])
    by (repeat constructor).
  split; [exact Hrun|].
  destruct (X3_removal_loop_halves_a_run_of_equal_texts
              (lit "a") [b] [a1; a2; a3] [c]) as [H _].
  - repeat constructor; discriminate.
  - exact Hrun.
  - repeat constructor; discriminate.
  - exact H.
Defined.

Lemma on_clipboard_change_cases (wait_for_text : option str)
      (net : sendto_reply) (self : NetClip) :
  on_clipboard_change wait_for_text net self = returned (VBool false) self []
  \/ exists s,
      wait_for_text = Some s /\ s <> []
      /\ same_as_last s (clips self) = false.
Proof.
  unfold on_clipboard_change. destruct wait_for_text as [s|]; [|left; reflexivity].
  destruct s as [|x s]; [left; reflexivity|]. cbn [falsy].
  destruct (same_as_last (x :: s) (clips self)) eqn:E; [left; reflexivity|].
  right. exists (x :: s). repeat split; [discriminate | exact E].
Qed.

Lemma on_clip_received_cases (data : bytes) (address : str * Z)
      (self : NetClip) :
  on_clip_received data address self = raised UnicodeDecodeError self []
  \/ (exists b : bool,
         on_clip_received data address self = returned (VBool b) self [])
  \/ exists s,
      utf8_decode data = Some s /\ last_sent self <> Some s /\ s <> []
      /\ same_as_last s (received_clips self) = false.
Proof.
  unfold on_clip_received.
  destruct (utf8_decode data) as [s|]; [|left; reflexivity]. right.
  destruct (match last_sent self with
            | Some sent => str_eqb sent s
            | None => false
            end) eqn:Hecho; [left; exists true; reflexivity|].
  destruct s as [|x s]; [left; exists false; reflexivity|]. cbn [falsy].
  destruct (same_as_last (x :: s) (received_clips self)) eqn:E;
    [left; exists false; reflexivity|].
  right. exists (x :: s). repeat split; try discriminate; [|exact E].
  intros H. apply echo_check in H. congruence.
Qed.

Lemma cap_cases (count : Z) (l : list Clip) :
  cap count l = l \/ cap count l = removelast l.
Proof. unfold cap. destruct (len l >? count)%Z; auto. Qed.

Lemma cap_distinct (count : Z) (l : list Clip) :
  NoDup (texts l) /\ Forall (fun c => text c <> []) l ->
  NoDup (texts (cap count l)) /\ Forall (fun c => text c <> []) (cap count l).
Proof.
  intros [H1 H2]. destruct (cap_cases count l) as [-> | ->]; [tauto|].
  split.
  - rewrite texts_removelast. apply NoDup_removelast. exact H1.
  - apply Forall_removelast. exact H2.
Qed.

Lemma entered_distinct (s : str) (w : Z) (l : list Clip) :
  s <> [] ->
  NoDup (texts l) /\ Forall (fun c => text c <> []) l ->
  NoDup (texts (mkClip s w :: remove_duplicates s l))
  /\ Forall (fun c => text c <> []) (mkClip s w :: remove_duplicates s l).
Proof.
  intros Hs [H1 H2]. rewrite remove_duplicates_NoDup by exact H1. split.
  - simpl. constructor; [apply without_not_in | apply without_NoDup; exact H1].
  - constructor; [exact Hs | apply without_Forall; exact H2].
Qed.

(** No handler puts a text twice into a history or stores an empty text,
    and the receive handler keeps the incoming history within the
    capacity, whatever the socket answers. *)
Lemma step_distinct (self : NetClip) (e : event) :
  NoDup (texts (clips self)) /\ Forall (fun c => text c <> []) (clips self) ->
  store_ok (clip_max_count self) (received_clips self) ->
  (NoDup (texts (clips (step self e)))
   /\ Forall (fun c => text c <> []) (clips (step self e)))
  /\ store_ok (clip_max_count self) (received_clips (step self e)).
Proof.
  intros Hc Hr. unfold step.
  destruct e as [t net|datagram address|clip net|clip| |]; cbn [dispatch].
  - destruct (on_clipboard_change_cases t net self)
      as [-> | (s & -> & Hs & Hlast)]; [split; assumption|].
    pose proof (on_clipboard_change_records s net self Hs Hlast)
      as (Hrc & _ & _ & Hout & _).
    rewrite Hrc. split; [|exact Hr].
    pose proof (entered_distinct s (menu_max_width self) _ Hs Hc) as He.
    destruct (res_outcome (on_clipboard_change (Some s) net self)).
    + destruct Hout as [_ ->]. apply cap_distinct. exact He.
    + destruct Hout as [_ ->]. exact He.
  - set (data := recvfrom 4096 datagram).
    destruct (on_clip_received_cases data address self)
      as [-> | [(b & ->) | (s & Hd & Hsent & Hs & Hlast)]];
      try (split; assumption).
    pose proof (on_clip_received_records data address s self Hd Hsent Hs Hlast)
      as (_ & Hrec & Hcl & _).
    rewrite Hrec, Hcl. split; [exact Hc|].
    apply store_ok_record; assumption.
  - rewrite send_clip_state. split; assumption.
  - split; assumption.
  - split; assumption.
  - split; assumption.
Qed.

Lemma run_distinct (events : list event) :
  forall self : NetClip,
    NoDup (texts (clips self))
    /\ Forall (fun c => text c <> []) (clips self) ->
    store_ok (clip_max_count self) (received_clips self) ->
    (NoDup (texts (clips (run self events)))
     /\ Forall (fun c => text c <> []) (clips (run self events)))
    /\ store_ok (clip_max_count self) (received_clips (run self events)).
Proof.
  induction events as [|e events IH]; intros self Hc Hr; [split; assumption|].
  simpl. destruct (step_distinct self e Hc Hr) as [Hc' Hr'].
  destruct (dispatch_frame self e) as [Hcount _].
  rewrite <- Hcount in Hr' |- *. apply IH; assumption.
Qed.

(** X4.  In every run of the program, whatever the socket answers and
    whichever handlers are left by an exception: neither history ever
    holds a text twice or an empty text, and the incoming history never
    exceeds the capacity. *)
Theorem X4_histories_stay_distinct_in_every_run :
  forall (count width : Z) (asend arecv : bool) (events : list event),
    (0 <= count)%Z ->
    let self := run (init count width asend arecv) events in
    NoDup (texts (clips self))
    /\ NoDup (texts (received_clips self))
    /\ ~ In [] (texts (clips self))
    /\ ~ In [] (texts (received_clips self))
    /\ (len (received_clips self) <= count)%Z.
Proof.
  intros count width asend arecv events H self.
  destruct (run_distinct events (init count width asend arecv))
    as [[H1 H2] (H3 & H4 & H5)].
  - split; constructor.
  - repeat split; [constructor | exact H | constructor].
  - fold self in H1, H2, H3, H4, H5. simpl clip_max_count in H4.
    assert (Hne : forall l, Forall (fun c => text c <> []) l
                            -> ~ In [] (texts l)).
    { intros l Hl Hin. apply in_map_iff in Hin.
      destruct Hin as (c & E & Hc). rewrite Forall_forall in Hl.
      exact (Hl c Hc E). }
    repeat split; auto.
Qed.

Lemma X4_witness :
  let self :=
    run (init 1 30 true true)
        [OwnerChange (Some (lit "a")) SendtoOSError;
         DatagramIn [x61] (lit "10.0.0.2", 10000%Z);
         DatagramIn [x62] (lit "10.0.0.2", 10000%Z)] in
  (0 <= 1)%Z
  /\ NoDup (texts (clips self))
  /\ (len (received_clips self) <= 1)%Z.
Proof.
  intros self. split; [lia|].
  destruct (X4_histories_stay_distinct_in_every_run
              1 30 true true
              [OwnerChange (Some (lit "a")) SendtoOSError;
               DatagramIn [x61] (lit "10.0.0.2", 10000%Z);
               DatagramIn [x62] (lit "10.0.0.2", 10000%Z)])
    as (H1 & _ & _ & _ & H5).
  - lia.
  - split; [exact H1 | exact H5].
Defined.

Lemma len_cap (count : Z) (c : Clip) (l : list Clip) :
  (len (cap count (c :: l)) <= Z.max count (len l))%Z.
Proof.
  destruct (Z_le_gt_dec (len (c :: l)) count) as [H|H].
  - rewrite cap_fits by exact H. lia.
  - rewrite cap_over by exact H. rewrite len_removelast by discriminate.
    unfold len. simpl length. lia.
Qed.

(** One handler: the outgoing history ends no longer than the larger of
    the capacity and its length before, plus one if the handler was left
    by an exception of the automatic send. *)
Lemma step_growth (self : NetClip) (e : event) :
  (len (clips (step self e))
   <= Z.max (clip_max_count self) (len (clips self))
      + Z.of_nat (raised_sends self [e]))%Z.
Proof.
  unfold step, raised_sends.
  destruct e as [t net|datagram address|clip net|clip| |]; cbn [dispatch].
  - destruct (on_clipboard_change_cases t net self)
      as [-> | (s & -> & Hs & Hlast)]; [simpl; lia|].
    pose proof (on_clipboard_change_records s net self Hs Hlast)
      as (_ & _ & _ & Hout & _).
    pose proof (remove_duplicates_length s (clips self)) as Hrm.
    destruct (res_outcome (on_clipboard_change (Some s) net self)).
    + destruct Hout as [_ ->].
      pose proof (len_cap (clip_max_count self)
                          (mkClip s (menu_max_width self))
                          (remove_duplicates s (clips self))).
      unfold len in *. lia.
    + destruct Hout as [_ ->]. unfold len. simpl length. lia.
  - set (data := recvfrom 4096 datagram).
    destruct (on_clip_received_cases data address self)
      as [-> | [(b & ->) | (s & Hd & Hsent & Hs & Hlast)]];
      try (simpl; lia).
    pose proof (on_clip_received_records data address s self Hd Hsent Hs Hlast)
      as (_ & _ & -> & _).
    simpl; lia.
  - rewrite send_clip_state. simpl; lia.
  - simpl. lia.
  - simpl. lia.
  - simpl. lia.
Qed.

Lemma run_growth (events : list event) :
  forall self : NetClip,
    (len (clips (run self events))
     <= Z.max (clip_max_count self) (len (clips self))
        + Z.of_nat (raised_sends self events))%Z.
Proof.
  induction events as [|e events IH]; intros self; [simpl; lia|].
  change (run self (e :: events)) with (run (step self e) events).
  specialize (IH (step self e)).
  destruct (dispatch_frame self e) as [Hcount _]. rewrite Hcount in IH.
  pose proof (step_growth self e) as Hstep.
  assert (E : raised_sends self (e :: events)
              = (raised_sends self [e]
                 + raised_sends (step self e) events)%nat).
  { cbn [raised_sends]. lia. }
  rewrite E. lia.
Qed.

(** X5.  The outgoing history exceeds the capacity by at most the number
    of owner-change handlers that the automatic send left by an
    exception; in a run without such an exception it stays within the
    capacity. *)
Theorem X5_outgoing_history_grows_by_one_per_raised_send :
  forall (count width : Z) (asend arecv : bool) (events : list event),
    (0 <= count)%Z ->
    (len (clips (run (init count width asend arecv) events))
     <= count
        + Z.of_nat (raised_sends (init count width asend arecv) events))%Z.
Proof.
  intros count width asend arecv events H.
  pose proof (run_growth events (init count width asend arecv)) as G.
  simpl clip_max_count in G. simpl clips in G at 2.
  change (len (@nil Clip)) with 0%Z in G. lia.
Qed.

Lemma X5_witness :
  let events :=
    [OwnerChange (Some (lit "a")) SendtoOSError;
     OwnerChange (Some (lit "b")) SendtoOSError;
     OwnerChange (Some (lit "c")) SendtoOk] in
  (0 <= 1)%Z
  /\ raised_sends (init 1 30 true false) events = 2%nat
  /\ (len (clips (run (init 1 30 true false) events)) <= 1 + 2)%Z.
Proof.
  intros events. split; [lia|]. split; [reflexivity|].
  apply (X5_outgoing_history_grows_by_one_per_raised_send
           1 30 true false events).
  lia.
Defined.

Lemma step_last_sent (self : NetClip) (e : event) :
  last_sent (step self e) = last_sent self
  \/ exists clip, last_sent (step self e) = Some (get_text clip).
Proof.
  unfold step.
  destruct e as [t net|datagram address|clip net|clip| |]; cbn [dispatch];
    try (left; reflexivity).
  - destruct (on_clipboard_change_cases t net self)
      as [-> | (s & -> & Hs & Hlast)]; [left; reflexivity|].
    unfold on_clipboard_change. rewrite (falsy_false s Hs), Hlast.
    destruct self as [cl rc cnt w ls asend arecv]. simpl.
    destruct asend; simpl; [|left; reflexivity].
    right. exists (mkClip s w). unfold send_clip. simpl.
    destruct (utf8_encode (get_text (mkClip s w))); [destruct net|];
      reflexivity.
  - set (data := recvfrom 4096 datagram).
    destruct (on_clip_received_cases data address self)
      as [-> | [(b & ->) | (s & Hd & Hsent & Hs & Hlast)]];
      try (left; reflexivity).
    pose proof (on_clip_received_records data address s self Hd Hsent Hs Hlast)
      as (_ & _ & _ & _ & _ & H & _).
    left. exact H.
  - right. exists clip. rewrite send_clip_state. reflexivity.
Qed.

(** X6.  In every run of the program [last_sent] is [None] or the wire
    payload of a clip: a text of at most 1472 characters.  What is kept
    for the loop suppression does not grow with the texts copied. *)
Theorem X6_last_sent_is_a_wire_payload :
  forall (count width : Z) (asend arecv : bool) (events : list event),
    let self := run (init count width asend arecv) events in
    last_sent self = None
    \/ exists clip,
        last_sent self = Some (get_text clip)
        /\ (len (get_text clip) <= 1472)%Z.
Proof.
  intros count width asend arecv events.
  assert (G : forall self,
             (last_sent self = None
              \/ exists clip, last_sent self = Some (get_text clip)) ->
             last_sent (run self events) = None
             \/ exists clip, last_sent (run self events) = Some (get_text clip)).
  { induction events as [|e events IH]; intros self H; [exact H|].
    simpl. apply IH.
    destruct (step_last_sent self e) as [-> | H']; [exact H | right; exact H']. }
  cbv zeta.
  destruct (G (init count width asend arecv) (or_introl eq_refl))
    as [H | (clip & H)]; [left; exact H|].
  right. exists clip. split; [exact H | apply get_text_len].
Qed.

(* ===================================================================== *)
(** ** Further properties of sending and receiving                        *)
(* ===================================================================== *)

(** X7.  The loop suppression closes the loop: the datagram that
    [send_clip] hands to the socket, when it comes back whole through
    [recvfrom(4096)], is ignored by the receive handler of the program
    that sent it: the handler returns True, changes nothing and calls no
    collaborator. *)
Theorem X7_own_datagram_is_ignored :
  forall (clip : Clip) (self : NetClip) (data : bytes) (address : str * Z),
    res_effects (send_clip clip SendtoOk self) = [Sendto data] ->
    (len data <= 4096)%Z ->
    let sent := res_state (send_clip clip SendtoOk self) in
    dispatch sent (DatagramIn data address) = returned (VBool true) sent [].
Proof.
  intros clip self data address Hout Hlen sent. cbn [dispatch].
  assert (Hdata : utf8_encode (get_text clip) = Some data).
  { unfold send_clip in Hout.
    destruct (utf8_encode (get_text clip)) as [d|]; [|discriminate].
    simpl in Hout. congruence. }
  assert (Hrecv : recvfrom 4096 data = data).
  { unfold recvfrom. apply firstn_all2. unfold len in Hlen. lia. }
  rewrite Hrecv. unfold on_clip_received.
  rewrite (utf8_decode_encode _ _ Hdata).
  unfold sent. rewrite send_clip_state. cbn [last_sent with_last_sent].
  rewrite str_eqb_refl. reflexivity.
Qed.

Lemma X7_witness :
  let clip := mkClip (lit "hello") 30 in
  let self := init 15 30 false true in
  let sent := res_state (send_clip clip SendtoOk self) in
  res_effects (send_clip clip SendtoOk self)
  = [Sendto [x68; x65; x6c; x6c; x6f]]
  /\ dispatch sent (DatagramIn [x68; x65; x6c; x6c; x6f]
                               (lit "10.0.0.1", 10000%Z))
     = returned (VBool true) sent [].
Proof.
  intros clip self sent. split; [reflexivity|].
  apply (X7_own_datagram_is_ignored
           clip self [x68; x65; x6c; x6c; x6f] (lit "10.0.0.1", 10000%Z)).
  - reflexivity.
  - vm_compute; discriminate.
Defined.

Lemma encode_char_length (c : char) (bs : bytes) :
  encode_char c = Some bs -> (length bs <= 4)%nat.
Proof.
  unfold encode_char.
  repeat match goal with
         | |- context [if ?b then _ else _] => destruct b
         end;
    intros E; try discriminate; apply Some_eq in E; rewrite <- E;
    simpl; lia.
Qed.

Lemma utf8_encode_length (s : str) :
  forall data : bytes,
    utf8_encode s = Some data -> (length data <= 4 * length s)%nat.
Proof.
  induction s as [|c s IH]; intros data; simpl utf8_encode.
  - intros E. apply Some_eq in E. rewrite <- E. simpl. lia.
  - destruct (encode_char c) as [bs|] eqn:Ec; [|discriminate].
    destruct (utf8_encode s) as [rest|]; [|discriminate].
    intros E. apply Some_eq in E. rewrite <- E.
    pose proof (encode_char_length c bs Ec). specialize (IH rest eq_refl).
    rewrite length_app. cbn [length]. lia.
Qed.

(** X8.  [send_clip] remembers the wire payload before it sends, so
    [last_sent] is set whether the call returns or raises; it never
    touches a history.  When it returns, it has handed the socket one
    datagram, which decodes to the wire payload and has at most
    4 * 1472 = 5888 octets; when it raises, no datagram left. *)
Theorem X8_send_clip_remembers_before_it_sends :
  forall (clip : Clip) (net : sendto_reply) (self : NetClip),
    let r := send_clip clip net self in
    last_sent (res_state r) = Some (get_text clip)
    /\ clips (res_state r) = clips self
    /\ received_clips (res_state r) = received_clips self
    /\ match res_outcome r with
       | Returned v =>
           exists data,
             res_effects r = [Sendto data]
             /\ v = VInt (len data)
             /\ utf8_decode data = Some (get_text clip)
             /\ (len data <= 5888)%Z
       | Raised _ => res_effects r = []
       end.
Proof.
  intros clip net self r. unfold r.
  rewrite send_clip_state. repeat split.
  unfold send_clip.
  destruct (utf8_encode (get_text clip)) as [data|] eqn:E; [|reflexivity].
  destruct net; [|reflexivity]. simpl.
  exists data. repeat split.
  - apply utf8_decode_encode. exact E.
  - pose proof (utf8_encode_length _ _ E) as Hl.
    pose proof (get_text_len clip) as Hp. unfold len in *. lia.
Qed.

Lemma received_text_becomes_head (data : bytes) (address : str * Z)
      (s : str) (self : NetClip) :
  utf8_decode data = Some s -> last_sent self <> Some s -> s <> [] ->
  (1 <= clip_max_count self)%Z ->
  hd_error (texts (received_clips
                     (res_state (on_clip_received data address self))))
  = Some s.
Proof.
  intros Hd Hsent Hs Hcount.
  destruct (same_as_last s (received_clips self)) eqn:Hlast.
  - assert (E : res_state (on_clip_received data address self) = self).
    { unfold on_clip_received. rewrite Hd.
      destruct (match last_sent self with
                | Some x => str_eqb x s
                | None => false
                end); [reflexivity|].
      rewrite (falsy_false s Hs), Hlast. reflexivity. }
    rewrite E. apply same_as_last_true. exact Hlast.
  - pose proof (on_clip_received_records data address s self Hd Hsent Hs Hlast)
      as (_ & Hrec & _).
    rewrite Hrec.
    destruct (hd_cap (clip_max_count self) (mkClip s (menu_max_width self))
                     (remove_duplicates s (received_clips self)) Hcount)
      as (l' & ->).
    reflexivity.
Qed.

Lemma get_text_nonempty (s : str) (w : Z) :
  s <> [] -> get_text (mkClip s w) <> [].
Proof.
  intros H. rewrite get_text_firstn. destruct s as [|x s]; [congruence|].
  discriminate.
Qed.

(** X9.  From one program to another.  When a text is copied in a
    program with the automatic send on and the socket takes the
    datagram, the handler sends the wire payload of the text and refills
    the menu.  When that datagram arrives whole at a program with a
    capacity of at least one whose last sent payload is another text,
    the payload is afterwards the most recent entry of its incoming
    history. *)
Theorem X9_a_copied_text_reaches_the_other_program :
  forall (A B : NetClip) (s : str) (data : bytes) (address : str * Z),
    let payload := get_text (mkClip s (menu_max_width A)) in
    s <> [] -> same_as_last s (clips A) = false -> autosend A = true ->
    utf8_encode payload = Some data -> (len data <= 4096)%Z ->
    last_sent B <> Some payload -> (1 <= clip_max_count B)%Z ->
    let rA := on_clipboard_change (Some s) SendtoOk A in
    let rB := dispatch B (DatagramIn data address) in
    res_outcome rA = Returned (VBool true)
    /\ res_effects rA = [Sendto data; fill_menu (res_state rA)]
    /\ hd_error (texts (received_clips (res_state rB))) = Some payload.
Proof.
  intros A B s data address payload Hs Hlast Hauto Henc Hlen Hsent Hcount
         rA rB.
  assert (HA : res_outcome rA = Returned (VBool true)
               /\ res_effects rA = [Sendto data; fill_menu (res_state rA)]).
  { unfold rA, on_clipboard_change. rewrite (falsy_false s Hs), Hlast.
    unfold payload in Henc.
    destruct A as [cl rc cnt w ls asend arecv]. simpl in Hauto, Henc |- *.
    subst asend. unfold send_clip. simpl. rewrite Henc. simpl.
    split; reflexivity. }
  destruct HA as [HA1 HA2]. split; [exact HA1|]. split; [exact HA2|].
  unfold rB. cbn [dispatch].
  assert (Hrecv : recvfrom 4096 data = data).
  { unfold recvfrom. apply firstn_all2. unfold len in Hlen. lia. }
  rewrite Hrecv. apply received_text_becomes_head.
  - apply utf8_decode_encode. exact Henc.
  - exact Hsent.
  - apply get_text_nonempty. exact Hs.
  - exact Hcount.
Qed.

Lemma X9_witness :
  let A := init 15 30 true false in
  let B := init 15 30 false true in
  let address := (lit "10.0.0.1", 10000%Z) in
  let data := [x68; x65; x6c; x6c; x6f] in
  utf8_encode (get_text (mkClip (lit "hello") 30)) = Some data
  /\ res_effects (on_clipboard_change (Some (lit "hello")) SendtoOk A)
     = [Sendto data;
        fill_menu (res_state
                     (on_clipboard_change (Some (lit "hello")) SendtoOk A))]
  /\ hd_error (texts (received_clips
                        (res_state (dispatch B (DatagramIn data address)))))
     = Some (lit "hello").
Proof.
  intros A B address data. split; [reflexivity|].
  destruct (X9_a_copied_text_reaches_the_other_program
              A B (lit "hello") data address) as (_ & H2 & H3).
  - discriminate.
  - reflexivity.
  - reflexivity.
  - reflexivity.
  - vm_compute; discriminate.
  - discriminate.
  - vm_compute; discriminate.
  - split; [exact H2 | exact H3].
Defined.

(** X10.  The receive handler never sends: whatever arrives and whatever
    the two toggles say, it hands the socket nothing and leaves
    [last_sent], the outgoing history and the two toggles as they were.
    A received clip is never broadcast again by the handler that
    received it. *)
Theorem X10_receive_handler_never_sends :
  forall (data : bytes) (address : str * Z) (self : NetClip),
    let r := on_clip_received data address self in
    (forall d, ~ In (Sendto d) (res_effects r))
    /\ last_sent (res_state r) = last_sent self
    /\ clips (res_state r) = clips self
    /\ autosend (res_state r) = autosend self
    /\ autoreceive (res_state r) = autoreceive self.
Proof.
  intros data address self r. unfold r, on_clip_received.
  destruct (utf8_decode data) as [s|];
    [|repeat split; intros d []].
  destruct (match last_sent self with
            | Some sent => str_eqb sent s
            | None => false
            end); [repeat split; intros d []|].
  destruct (falsy s); [repeat split; intros d []|].
  destruct (same_as_last s (received_clips self));
    [repeat split; intros d []|].
  destruct self as [cl rc cnt w ls asend arecv]. simpl.
  repeat split. intros d.
  destruct arecv; simpl; intuition discriminate.
Qed.

(** X11.  The owner-change handler never touches the incoming history,
    copies nothing to the clipboard and shows no notification; it hands
    the socket at most one datagram, and none when the automatic send is
    off. *)
Theorem X11_owner_change_leaves_the_incoming_side_alone :
  forall (wait_for_text : option str) (net : sendto_reply) (self : NetClip),
    let r := on_clipboard_change wait_for_text net self in
    received_clips (res_state r) = received_clips self
    /\ (forall x, ~ In (ClipboardSetText x) (res_effects r))
    /\ ~ In ClipboardStore (res_effects r)
    /\ (forall a b, ~ In (NotificationShow a b) (res_effects r))
    /\ (length (filter (fun e => match e with Sendto _ => true | _ => false end)
                       (res_effects r)) <= 1)%nat
    /\ (autosend self = false -> forall d, ~ In (Sendto d) (res_effects r)).
Proof.
  intros t net self r. unfold r.
  destruct (on_clipboard_change_cases t net self)
    as [-> | (s & -> & Hs & Hlast)].
  { simpl. repeat split; auto. }
  unfold on_clipboard_change. rewrite (falsy_false s Hs), Hlast.
  destruct self as [cl rc cnt w ls asend arecv]. simpl.
  destruct asend; simpl.
  - unfold send_clip. simpl.
    destruct (utf8_encode (get_text (mkClip s w))) as [data|]; simpl.
    + destruct net; simpl; repeat split; auto;
        try (intros; intuition discriminate); discriminate.
    + repeat split; auto; discriminate.
  - repeat split; auto; intros; intuition discriminate.
Qed.

(** X12.  When the automatic send raises (the socket refuses the
    datagram, or the text cannot be encoded), the owner-change handler
    is left with the new clip already at the front of the outgoing
    history and [last_sent] already set to its wire payload, but with
    nothing sent and the menu not refilled. *)
Theorem X12_raised_send_leaves_the_clip_recorded_and_the_menu_stale :
  forall (s : str) (net : sendto_reply) (self : NetClip),
    s <> [] -> same_as_last s (clips self) = false ->
    autosend self = true ->
    net = SendtoOSError
    \/ utf8_encode (get_text (mkClip s (menu_max_width self))) = None ->
    let clip := mkClip s (menu_max_width self) in
    let r := on_clipboard_change (Some s) net self in
    (exists e, res_outcome r = Raised e)
    /\ clips (res_state r) = clip :: remove_duplicates s (clips self)
    /\ last_sent (res_state r) = Some (get_text clip)
    /\ res_effects r = [].
Proof.
  intros s net self Hs Hlast Hauto Hfail clip r.
  unfold r, clip, on_clipboard_change. rewrite (falsy_false s Hs), Hlast.
  destruct self as [cl rc cnt w ls asend arecv]. simpl in Hauto, Hfail |- *.
  subst asend. unfold send_clip. simpl.
  destruct (utf8_encode (get_text (mkClip s w))) as [data|] eqn:E; simpl.
  - destruct Hfail as [-> | Hfail]; [|discriminate]. simpl.
    repeat split; eauto.
  - repeat split; eauto.
Qed.

Lemma X12_witness :
  let self :=
    mkNetClip [mkClip (lit "a") 30] [] 15 30 None true false in
  let r := on_clipboard_change (Some (lit "b")) SendtoOSError self in
  clips (res_state r) = [mkClip (lit "b") 30; mkClip (lit "a") 30]
  /\ last_sent (res_state r) = Some (lit "b")
  /\ res_effects r = [].
Proof.
  intros self r.
  destruct (X12_raised_send_leaves_the_clip_recorded_and_the_menu_stale
              (lit "b") SendtoOSError self) as (_ & H1 & H2 & H3).
  - discriminate.
  - reflexivity.
  - reflexivity.
  - left. reflexivity.
  - split; [exact H1|]. split; [exact H2 | exact H3].
Defined.

(* ===================================================================== *)
(** ** Further properties of the labels                                   *)
(* ===================================================================== *)

Lemma in_slice_to {A} (x : A) (s : list A) (k : Z) :
  In x (slice_to s k) -> In x s.
Proof.
  unfold slice_to. intros H.
  rewrite <- (firstn_skipn (clamp (length s) k) s).
  apply in_or_app. left. exact H.
Qed.

Lemma in_slice_from {A} (x : A) (s : list A) (k : Z) :
  In x (slice_from s k) -> In x s.
Proof.
  unfold slice_from. intros H.
  rewrite <- (firstn_skipn (clamp (length s) k) s).
  apply in_or_app. right. exact H.
Qed.

(** X13.  No label holds a newline (U+000A), whatever the text and the
    width: every menu item made from a clip is labelled with text in
    which the newlines of the clip have become spaces. *)
Theorem X13_label_holds_no_newline :
  forall c : Clip, ~ In 10%N (get_itemlabel c).
Proof.
  intros c. destruct (normalized_spec (text c)) as (_ & _ & _ & Hnl).
  rewrite get_itemlabel_unfold.
  destruct (len (normalized (text c)) >? max_width c)%Z; [|exact Hnl].
  intros H. apply in_app_or in H. destruct H as [H|H].
  - apply Hnl. apply (in_slice_to _ _ _ H).
  - apply in_app_or in H. destruct H as [H|H].
    + simpl in H. intuition discriminate.
    + apply Hnl. apply (in_slice_from _ _ _ H).
Qed.

Lemma label_shortened (c : Clip) :
  (4 <= max_width c)%Z -> (len (normalized (text c)) > max_width c)%Z ->
  let k := Z.to_nat (max_width c / 2 - 1) in
  get_itemlabel c
  = firstn k (normalized (text c)) ++ ellipsis
    ++ skipn (length (normalized (text c)) - k) (normalized (text c))
  /\ (Z.of_nat k = max_width c / 2 - 1)%Z
  /\ (k <= length (normalized (text c)))%nat.
Proof.
  intros Hw Hlen k. set (norm := normalized (text c)) in *.
  assert (H2 : (2 <= max_width c / 2)%Z)
    by (apply Z.div_le_lower_bound; lia).
  assert (Hup : (max_width c / 2 <= max_width c)%Z)
    by (apply Z.div_le_upper_bound; lia).
  assert (Hk : (max_width c / 2 - 1)%Z = Z.of_nat k)
    by (unfold k; rewrite Z2Nat.id; lia).
  assert (Hk2 : (k <= length norm)%nat) by (unfold len in Hlen; lia).
  split; [|split; [lia | exact Hk2]].
  rewrite get_itemlabel_unfold. fold norm.
  destruct (Z.gtb_spec (len norm) (max_width c)) as [_|]; [|lia].
  rewrite int_truediv2_nonneg by lia.
  rewrite Hk, slice_to_firstn, slice_from_neg by lia.
  reflexivity.
Qed.

(** X14.  For a width of at least 4 the label is never longer than the
    width plus one.  A shortened label has exactly
    [2 * (floor(width/2) - 1)] characters of the text around the
    separator, so with the three characters of the separator an even
    width is exceeded by one. *)
Theorem X14_label_length_is_bounded_by_the_width :
  forall c : Clip,
    (4 <= max_width c)%Z ->
    (len (get_itemlabel c) <= max_width c + 1)%Z
    /\ ((len (normalized (text c)) > max_width c)%Z ->
        len (get_itemlabel c)
        = (2 * (max_width c / 2 - 1) + len ellipsis)%Z).
Proof.
  intros c Hw.
  assert (Hhalf : (2 * (max_width c / 2) <= max_width c)%Z)
    by (apply Z.mul_div_le; lia).
  assert (Hlong :
    (len (normalized (text c)) > max_width c)%Z ->
    len (get_itemlabel c) = (2 * (max_width c / 2 - 1) + len ellipsis)%Z).
  { intros Hlen.
    destruct (label_shortened c Hw Hlen) as (-> & Hk & Hk2).
    unfold len. rewrite !length_app, length_firstn, length_skipn.
    change (length ellipsis) with 3%nat. lia. }
  split; [|exact Hlong].
  destruct (Z_le_gt_dec (len (normalized (text c))) (max_width c)) as [H|H].
  - rewrite get_itemlabel_unfold.
    destruct (Z.gtb_spec (len (normalized (text c))) (max_width c));
      [lia|]. lia.
  - rewrite (Hlong H). change (len ellipsis) with 3%Z. lia.
Qed.

Lemma X14_witness :
  let c := mkClip (lit "abcdefghijklmno") 10 in
  (4 <= max_width c)%Z
  /\ (len (get_itemlabel c) <= 10 + 1)%Z.
Proof.
  intros c. split; [vm_compute; discriminate|].
  apply (X14_label_length_is_bounded_by_the_width c).
  vm_compute; discriminate.
Defined.

(** X15.  For width 0 or 1 and a normalized text longer than the width,
    [int(width/2) - 1] is -1 and the two slices are [[:-1]] and [[1:]]:
    the label is the text without its last character, the separator, and
    the text without its first character. *)
Theorem X15_label_for_width_zero_or_one :
  forall c : Clip,
    let norm := normalized (text c) in
    (max_width c = 0 \/ max_width c = 1)%Z ->
    (len norm > max_width c)%Z ->
    get_itemlabel c = removelast norm ++ ellipsis ++ tl norm
    /\ len (get_itemlabel c) = (2 * len norm + 1)%Z.
Proof.
  intros c norm Hw Hlen.
  assert (Hk : (int_truediv2 (max_width c) - 1 = -1)%Z)
    by (destruct Hw as [-> | ->]; reflexivity).
  assert (Hne : norm <> []).
  { intros E. rewrite E in Hlen. unfold len in Hlen. simpl in Hlen. lia. }
  assert (Hlabel : get_itemlabel c = removelast norm ++ ellipsis ++ tl norm).
  { rewrite get_itemlabel_unfold. fold norm.
    destruct (Z.gtb_spec (len norm) (max_width c)) as [_|]; [|lia].
    rewrite Hk. f_equal; [|f_equal].
    - unfold slice_to. rewrite clamp_neg by lia.
      rewrite removelast_firstn_len. f_equal. lia.
    - change (- -1)%Z with 1%Z. unfold slice_from.
      rewrite clamp_nonneg by lia.
      destruct norm as [|x norm']; [congruence|]. reflexivity. }
  split; [exact Hlabel|].
  rewrite Hlabel. unfold len. rewrite !length_app.
  change (length ellipsis) with 3%nat.
  rewrite removelast_firstn_len, length_firstn.
  destruct norm as [|x norm']; [congruence|]. cbn [tl length pred]. lia.
Qed.

Lemma X15_witness :
  let c := mkClip (lit "abc") 1 in
  (max_width c = 0 \/ max_width c = 1)%Z
  /\ (len (normalized (text c)) > max_width c)%Z
  /\ get_itemlabel c = lit "ab" ++ ellipsis ++ lit "bc".
Proof.
  intros c. split; [right; reflexivity|]. split; [vm_compute; reflexivity|].
  apply (X15_label_for_width_zero_or_one c).
  - right. reflexivity.
  - vm_compute. reflexivity.
Defined.

Lemma lstrip_all_space (s : str) :
  Forall (fun x => isspace x = true) s -> lstrip s = [].
Proof.
  induction 1 as [|x s Hx _ IH]; [reflexivity|]. simpl. rewrite Hx. exact IH.
Qed.

Lemma normalized_empty_iff (s : str) :
  normalized s = [] <-> Forall (fun x => isspace x = true) s.
Proof.
  split.
  - intros E. destruct (normalized_spec s) as ((pre & post & Hr & Hpre & Hpost) & _).
    rewrite E in Hr. simpl in Hr.
    assert (Hall : Forall (fun x => isspace x = true) (replace 10%N 32%N s)).
    { rewrite Hr. apply Forall_app. split; assumption. }
    unfold replace in Hall. rewrite Forall_map in Hall.
    rewrite Forall_forall in Hall |- *. intros x Hx. specialize (Hall x Hx).
    cbv beta in Hall. destruct (N.eqb_spec x 10) as [E' | E'];
      [rewrite E'; reflexivity|].
    exact Hall.
  - intros H. unfold normalized, strip.
    rewrite lstrip_all_space; [reflexivity|].
    unfold replace. rewrite Forall_map.
    rewrite Forall_forall in H |- *. intros x Hx. specialize (H x Hx).
    cbv beta. destruct (N.eqb_spec x 10); [reflexivity | exact H].
Qed.

Lemma label_empty_iff (c : Clip) :
  (0 <= max_width c)%Z ->
  (get_itemlabel c = [] <-> Forall (fun x => isspace x = true) (text c)).
Proof.
  intros Hw. rewrite <- normalized_empty_iff.
  rewrite get_itemlabel_unfold.
  destruct (Z.gtb_spec (len (normalized (text c))) (max_width c)) as [H|H];
    [|tauto].
  split.
  - intros E. apply app_eq_nil in E. destruct E as [_ E].
    apply app_eq_nil in E. destruct E as [E _]. discriminate.
  - intros E. rewrite E in H. unfold len in H. simpl in H. lia.
Qed.

(** X16.  For a width that is not negative, the label of a clip is empty
    exactly when its text consists of whitespace only (the empty text
    included). *)
Theorem X16_label_is_empty_exactly_for_blank_text :
  forall c : Clip,
    (0 <= max_width c)%Z ->
    (get_itemlabel c = [] <-> Forall (fun x => isspace x = true) (text c)).
Proof.
  intros c Hw. split.
  - intros E. apply normalized_empty_iff.
    rewrite get_itemlabel_unfold in E.
    destruct (len (normalized (text c)) >? max_width c)%Z; [|exact E].
    apply app_eq_nil in E. destruct E as [_ E].
    apply app_eq_nil in E. destruct E as [E _]. discriminate.
  - intros Hblank. apply normalized_empty_iff in Hblank.
    rewrite get_itemlabel_unfold, Hblank.
    destruct (Z.gtb_spec (len (@nil char)) (max_width c)) as [H|_];
      [|reflexivity].
    unfold len in H. simpl in H. lia.
Qed.

Lemma X16_witness :
  let c := mkClip ([32; 10; 9; 0xA0]%N) 30 in
  (0 <= max_width c)%Z /\ get_itemlabel c = [].
Proof.
  intros c. split; [vm_compute; discriminate|].
  apply (X16_label_is_empty_exactly_for_blank_text c).
  - vm_compute; discriminate.
  - repeat constructor.
Defined.

Lemma owner_change_puts_the_clip_first (s : str) (net : sendto_reply)
      (self : NetClip) :
  s <> [] -> same_as_last s (clips self) = false ->
  (1 <= clip_max_count self)%Z ->
  exists rest,
    clips (res_state (on_clipboard_change (Some s) net self))
    = mkClip s (menu_max_width self) :: rest.
Proof.
  intros Hs Hlast Hcount.
  pose proof (on_clipboard_change_records s net self Hs Hlast)
    as (_ & _ & _ & Hout & _).
  destruct (res_outcome (on_clipboard_change (Some s) net self)).
  - destruct Hout as [_ ->]. apply hd_cap. exact Hcount.
  - destruct Hout as [_ ->]. eauto.
Qed.

(** X17.  The owner-change handler rejects the empty text only: a text
    of nothing but whitespace is recorded like any other (with a
    capacity of at least one it becomes the head of the outgoing
    history), and for a width that is not negative its menu item has an
    empty label. *)
Theorem X17_blank_text_is_recorded_with_an_empty_label :
  forall (s : str) (net : sendto_reply) (self : NetClip),
    s <> [] -> Forall (fun x => isspace x = true) s ->
    same_as_last s (clips self) = false ->
    (1 <= clip_max_count self)%Z -> (0 <= menu_max_width self)%Z ->
    let clip := mkClip s (menu_max_width self) in
    (exists rest,
        clips (res_state (on_clipboard_change (Some s) net self))
        = clip :: rest)
    /\ get_itemlabel clip = [].
Proof.
  intros s net self Hs Hblank Hlast Hcount Hw clip. split.
  - apply owner_change_puts_the_clip_first; assumption.
  - apply (proj2 (label_empty_iff clip Hw)). exact Hblank.
Qed.

Lemma X17_witness :
  let self := init 15 30 false false in
  let r := on_clipboard_change (Some [32%N; 9%N]) SendtoOk self in
  clips (res_state r) = [mkClip [32%N; 9%N] 30]
  /\ get_itemlabel (mkClip [32%N; 9%N] 30) = [].
Proof.
  intros self r.
  destruct (X17_blank_text_is_recorded_with_an_empty_label
              [32%N; 9%N] SendtoOk self) as [_ H2].
  - discriminate.
  - repeat constructor.
  - reflexivity.
  - vm_compute; discriminate.
  - vm_compute; discriminate.
  - split; [reflexivity | exact H2].
Defined.

(* ===================================================================== *)
(** ** Properties of the menu                                             *)
(* ===================================================================== *)

Lemma menu_groups_split (self : NetClip) :
  exists g1 g2,
    Menu.groups self = g1 ++ Menu.SeparatorMenuItem :: g2
    /\ Forall (fun w => Menu.is_separator w = false) g1
    /\ Forall (fun w => Menu.is_separator w = false) g2.
Proof.
  eexists _, _. split; [reflexivity|].
  split; apply menu_group_no_separator.
Qed.

(** The clearing loop takes the two groups off the front of a menu and
    stops at the separator that follows them. *)
Lemma menu_clear_groups (self : NetClip) (T : list Menu.widget) :
  T = [] \/ (exists T', T = Menu.SeparatorMenuItem :: T') ->
  Menu.clear_loop (Menu.groups self ++ T) 0 (Menu.groups self ++ T) = T.
Proof.
  intros HT. destruct (menu_groups_split self) as (g1 & g2 & -> & H1 & H2).
  rewrite <- app_assoc. rewrite menu_clear_loop_skips by exact H1.
  cbn [app Menu.clear_loop Menu.is_separator andb Nat.eqb].
  rewrite menu_remove_head. rewrite menu_clear_loop_skips by exact H2.
  destruct HT as [-> | (T' & ->)]; reflexivity.
Qed.

(** X18.  [fill_menu] on a menu with at least two separators: every
    child before the second separator is removed, the two groups built
    from the current histories take their place (header, one item per
    clip bound to send or copy that clip, the separator between the
    groups), and the second separator and all children after it stay as
    they were, in their order. *)
Theorem X18_fill_menu_rebuilds_the_groups_and_keeps_the_rest :
  forall (self : NetClip) (A B T : list Menu.widget),
    Forall (fun w => Menu.is_separator w = false) A ->
    Forall (fun w => Menu.is_separator w = false) B ->
    Menu.fill_menu self
      (A ++ Menu.SeparatorMenuItem :: B ++ Menu.SeparatorMenuItem :: T)
    = Menu.groups self ++ Menu.SeparatorMenuItem :: T.
Proof.
  intros self A B T HA HB. rewrite menu_fill_menu_groups. f_equal.
  rewrite menu_clear_loop_skips by exact HA.
  cbn [Menu.clear_loop Menu.is_separator andb Nat.eqb].
  rewrite menu_remove_head. rewrite menu_clear_loop_skips by exact HB.
  reflexivity.
Qed.

Lemma X18_witness :
  let self :=
    mkNetClip [mkClip (lit "b") 30] [mkClip (lit "x") 30]
              15 30 None false false in
  let stale := Menu.MenuItem (lit "old") true None in
  Menu.fill_menu self
    ([stale] ++ Menu.SeparatorMenuItem
     :: [stale; stale] ++ Menu.SeparatorMenuItem
     :: [Menu.MenuItem (lit "_Quit") true (Some Menu.quit)])
  = Menu.groups self
    ++ [Menu.SeparatorMenuItem;
        Menu.MenuItem (lit "_Quit") true (Some Menu.quit)].
Proof.
  intros self stale.
  apply (X18_fill_menu_rebuilds_the_groups_and_keeps_the_rest
           self [stale] [stale; stale]
           [Menu.MenuItem (lit "_Quit") true (Some Menu.quit)]);
    repeat constructor.
Defined.

(** X19.  [fill_menu] on a menu with fewer than two separators: the
    clearing loop never reaches its break and removes every child, so
    the menu afterwards holds the two groups and nothing else. *)
Theorem X19_fill_menu_empties_a_menu_with_fewer_than_two_separators :
  forall (self : NetClip) (A B : list Menu.widget),
    Forall (fun w => Menu.is_separator w = false) A ->
    Forall (fun w => Menu.is_separator w = false) B ->
    Menu.fill_menu self A = Menu.groups self
    /\ Menu.fill_menu self (A ++ Menu.SeparatorMenuItem :: B)
       = Menu.groups self.
Proof.
  intros self A B HA HB. rewrite !menu_fill_menu_groups. split.
  - rewrite menu_clear_loop_all by exact HA. apply app_nil_r.
  - rewrite menu_clear_loop_skips by exact HA.
    cbn [Menu.clear_loop Menu.is_separator andb Nat.eqb].
    rewrite menu_remove_head. rewrite menu_clear_loop_all by exact HB.
    apply app_nil_r.
Qed.

Lemma X19_witness :
  let self := init 15 30 false false in
  let quit := Menu.MenuItem (lit "_Quit") true (Some Menu.quit) in
  Menu.fill_menu self ([quit] ++ Menu.SeparatorMenuItem :: [quit])
  = Menu.groups self.
Proof.
  intros self quit.
  apply (X19_fill_menu_empties_a_menu_with_fewer_than_two_separators
           self [quit] [quit]); repeat constructor.
Defined.

(** X20.  Refilling replaces, it does not pile up: filling the menu for
    one state and then for another gives the menu that filling for the
    second state alone gives, for every menu to start from. *)
Theorem X20_fill_menu_twice_is_fill_menu_once :
  forall (self self' : NetClip) (menu : list Menu.widget),
    Menu.fill_menu self' (Menu.fill_menu self menu)
    = Menu.fill_menu self' menu.
Proof.
  intros self self' menu. rewrite !menu_fill_menu_groups. f_equal.
  apply menu_clear_groups. apply menu_clear_loop_shape.
Qed.

Lemma last_cons_default {A} (l : list A) :
  forall a d d' : A, last (a :: l) d = last (a :: l) d'.
Proof.
  induction l as [|b l IH]; intros a d d'; [reflexivity|].
  change (last (b :: l) d = last (b :: l) d'). apply IH.
Qed.

Lemma last_cons_shift {A} (l : list A) (a d : A) :
  last (a :: l) d = last l a.
Proof.
  destruct l as [|b l]; [reflexivity|].
  change (last (b :: l) d = last (b :: l) a). apply last_cons_default.
Qed.

(** X21.  The menu of the running program.  [create_menu] on the new,
    empty menu gives the two groups followed by the fixed children
    (separator, the two check items, separator, About, Quit); after any
    number of refills the menu is the two groups of the state of the
    last refill followed by the same fixed children, so it always has
    [len(clips) + len(received_clips) + 9] children. *)
Theorem X21_menu_is_the_two_groups_and_the_fixed_items :
  forall (self : NetClip) (asend arecv : bool) (refills : list NetClip),
    let menu :=
      fold_left (fun menu st => Menu.fill_menu st menu) refills
                (Menu.create_menu self [] asend arecv) in
    menu = Menu.groups (last refills self) ++ Menu.fixed_items asend arecv
    /\ length menu
       = (length (clips (last refills self))
          + length (received_clips (last refills self)) + 9)%nat.
Proof.
  intros self asend arecv refills.
  assert (Hstart : Menu.create_menu self [] asend arecv
                   = Menu.groups self ++ Menu.fixed_items asend arecv).
  { unfold Menu.create_menu. rewrite menu_fill_menu_groups. reflexivity. }
  assert (Hrun : forall st m,
             m = Menu.groups st ++ Menu.fixed_items asend arecv ->
             fold_left (fun menu st => Menu.fill_menu st menu) refills m
             = Menu.groups (last refills st) ++ Menu.fixed_items asend arecv).
  { induction refills as [|st' refills IH]; intros st m Hm; [exact Hm|].
    cbn [fold_left].
    rewrite (IH st' (Menu.fill_menu st' m)).
    - rewrite last_cons_shift. reflexivity.
    - rewrite Hm, menu_fill_menu_groups. f_equal.
      apply menu_clear_groups. right. eexists. reflexivity. }
  intros menu.
  assert (E : menu
              = Menu.groups (last refills self)
                ++ Menu.fixed_items asend arecv).
  { unfold menu. apply Hrun. exact Hstart. }
  split; [exact E|]. rewrite E. unfold Menu.groups, Menu.group.
  rewrite !length_app. cbn [length]. rewrite !length_map.
  cbn [Menu.fixed_items length]. lia.
Qed.

(* ===================================================================== *)
(** ** What holds of the capacity and of the datagram size                *)
(* ===================================================================== *)

(** X22.  For a text of ASCII characters the datagram has one octet per
    character of the wire payload: at most 1472 octets, and exactly 1472
    when the text has 1472 characters or more. *)
Theorem X22_ascii_text_fits_one_datagram :
  forall c : Clip,
    Forall (fun x => (x < 0x80)%N) (text c) ->
    exists data,
      utf8_encode (get_text c) = Some data
      /\ (len data <= 1472)%Z
      /\ ((1472 <= len (text c))%Z -> len data = 1472%Z).
Proof.
  intros c H.
  destruct (utf8_encode_ascii (get_text c)) as (data & Hd & Hl).
  { rewrite get_text_firstn. rewrite Forall_forall in H |- *.
    intros x Hx. apply H. rewrite <- (firstn_skipn 1472 (text c)).
    apply in_or_app. left. exact Hx. }
  exists data. split; [exact Hd|].
  unfold len. rewrite Hl, get_text_firstn, length_firstn. split; lia.
Qed.

Lemma X22_witness :
  Forall (fun x => (x < 0x80)%N) (text (mkClip (lit "hello") 30))
  /\ exists data,
      utf8_encode (get_text (mkClip (lit "hello") 30)) = Some data
      /\ (len data <= 1472)%Z.
Proof.
  assert (H : Forall (fun x => (x < 0x80)%N) (text (mkClip (lit "hello") 30))).
  { repeat constructor. }
  split; [exact H|].
  destruct (X22_ascii_text_fits_one_datagram (mkClip (lit "hello") 30) H)
    as (data & H1 & H2 & _).
  exists data. split; assumption.
Defined.

(** X23.  In every run in which no owner-change handler is left by an
    exception of the automatic send, both histories stay within the
    capacity and neither holds a text twice. *)
Theorem X23_histories_within_capacity_while_sends_succeed :
  forall (count width : Z) (asend arecv : bool) (events : list event),
    (0 <= count)%Z ->
    completes (init count width asend arecv) events ->
    let self := run (init count width asend arecv) events in
    (len (clips self) <= count)%Z /\ NoDup (texts (clips self))
    /\ (len (received_clips self) <= count)%Z
    /\ NoDup (texts (received_clips self)).
Proof.
  intros count width asend arecv events H Hc self.
  destruct (init_store_ok count width asend arecv H) as [H1 H2].
  destruct (run_store_ok events (init count width asend arecv) H1 H2 Hc)
    as [(A & B & _) (C & D & _)].
  fold self in A, B, C, D. simpl clip_max_count in B, D. tauto.
Qed.

Lemma X23_witness :
  let events :=
    [OwnerChange (Some (lit "a")) SendtoOk;
     OwnerChange (Some (lit "b")) SendtoOk;
     DatagramIn [x63] (lit "10.0.0.2", 10000%Z)] in
  let self := run (init 1 30 true false) events in
  (0 <= 1)%Z
  /\ completes (init 1 30 true false) events
  /\ (len (clips self) <= 1)%Z
  /\ (len (received_clips self) <= 1)%Z.
Proof.
  intros events self.
  assert (Hc : completes (init 1 30 true false) events).
  { cbn [completes events]. repeat split;
      intros t net x _; vm_compute; discriminate. }
  split; [lia|]. split; [exact Hc|].
  destruct (X23_histories_within_capacity_while_sends_succeed
              1 30 true false events) as (H1 & _ & H3 & _).
  - lia.
  - exact Hc.
  - split; [exact H1 | exact H3].
Defined.
